(** * fileMerger.py: the image feature dataset merger

    A shallow embedding of [src/fileMerger.py] and the properties of its
    specification.

    The script is a straight-line Python program.  It lists three
    directories, reads every CSV file it finds with pandas, prefixes the
    columns of each table with an identifier derived from the file name,
    concatenates the tables side by side and writes the result.

    Layout of the development:
    - [PyStr]: the [str] methods the script calls;
    - [OsPath]: [os.path.join] and [os.path.splitext] (POSIX flavour);
    - [Pandas]: the fragment of the DataFrame interface the script uses,
      with the row index on which [pd.concat] aligns tables; what pandas
      decides from value types and index kinds is kept abstract;
    - [Script]: the script itself, in a state-and-exception monad over an
      environment that answers [os.listdir], [os.path.isdir] and
      [pd.read_csv] and says whether the output file can be written;
    - the theorems, one per property of the specification. *)

From Stdlib Require Import List String Ascii ZArith Lia Bool Arith.
From Stdlib Require Import Sorting.Mergesort Sorting.Sorted Sorting.Permutation.
From Stdlib Require Import Orders RelationClasses DecimalString.
Import ListNotations.

Local Open Scope string_scope.
Local Open Scope list_scope.

(** ** Python strings

  A Python [str] is modelled as a [string]; each [ascii] stands for one
  code point below 256, and [String.compare] is then the code point order
  that [sorted] uses. *)

Module PyStr.

(** The two control characters of the script's messages. *)
Definition nl : string := String (ascii_of_nat 10) EmptyString.
Definition tab : string := String (ascii_of_nat 9) EmptyString.

(** [s.startswith(p)] *)
Definition startswith (s p : string) : bool := String.prefix p s.

(** [s.endswith(suf)]: the last [len(suf)] characters of [s] are [suf]. *)
Definition endswith (s suf : string) : bool :=
  let n := String.length s in
  let m := String.length suf in
  (m <=? n)%nat && (String.substring (n - m) m s =? suf)%string.

(** [s.rfind(c)] for a one-character needle: the highest index holding
    [c], or [-1]. *)
Fixpoint rfind_from (c : ascii) (s : string) (i acc : Z) : Z :=
  match s with
  | EmptyString => acc
  | String a s' =>
      rfind_from c s' (i + 1) (if Ascii.eqb a c then i else acc)
  end.

Definition rfind (s : string) (c : ascii) : Z := rfind_from c s 0 (-1).

(** [s[:i]], with Python's reading of a negative bound. *)
Definition slice_to (s : string) (i : Z) : string :=
  let n := Z.of_nat (String.length s) in
  let stop := if (i <? 0)%Z then Z.max 0 (n + i) else i in
  String.substring 0 (Z.to_nat stop) s.

(** [s[i:]] *)
Definition slice_from (s : string) (i : Z) : string :=
  let n := Z.of_nat (String.length s) in
  let start := if (i <? 0)%Z then Z.max 0 (n + i) else i in
  String.substring (Z.to_nat start) (String.length s) s.

(** [s[i:i+1]]: the character at [i] as a string, empty out of range. *)
Definition char_at (s : string) (i : Z) : string :=
  if (i <? 0)%Z then EmptyString
  else String.substring (Z.to_nat i) 1 s.

(** [s.replace(old, new)].  The scan goes left to right; at an occurrence
    of [old] it emits [new] and jumps over the occurrence ([skip] counts
    the characters still to jump over), elsewhere it copies one character.
    With an empty [old] Python puts [new] before every character and at
    the end. *)
Fixpoint replace_from (old new : string) (skip : nat) (s : string) : string :=
  match s with
  | EmptyString => EmptyString
  | String c s' =>
      match skip with
      | S k => replace_from old new k s'
      | O =>
          if String.prefix old s
          then (new ++ replace_from old new (String.length old - 1) s')%string
          else String c (replace_from old new 0 s')
      end
  end.

Fixpoint intersperse (new s : string) : string :=
  match s with
  | EmptyString => new
  | String c s' => (new ++ String c (intersperse new s'))%string
  end.

Definition replace (s old new : string) : string :=
  match old with
  | EmptyString => intersperse new s
  | String _ _ => replace_from old new 0 s
  end.

(** [old in s]: [old] occurs in [s] as a substring. *)
Fixpoint contains (s old : string) : bool :=
  String.prefix old s ||
  match s with
  | EmptyString => false
  | String _ s' => contains s' old
  end.

(** [c in s] for one character. *)
Fixpoint has_char (c : ascii) (s : string) : bool :=
  match s with
  | EmptyString => false
  | String a s' => Ascii.eqb a c || has_char c s'
  end.

End PyStr.

(** ** os.path, POSIX flavour ([os.sep] is ["/"], no [altsep]) *)

Module OsPath.

Definition sep : string := "/".
Definition sep_char : ascii := "/"%char.
Definition extsep_char : ascii := "."%char.

(** [posixpath.join(a, b)] *)
Definition join (a b : string) : string :=
  if PyStr.startswith b sep then b
  else if (a =? "")%string || PyStr.endswith a sep then (a ++ b)%string
  else (a ++ sep ++ b)%string.

(** The [while] loop of [genericpath._splitext]: [n] is
    [dotIndex - filenameIndex], the number of iterations left.  It answers
    whether some character in [filenameIndex .. dotIndex-1] is not a
    dot. *)
Fixpoint non_dot_before (p : string) (filenameIndex : Z) (n : nat) : bool :=
  match n with
  | O => false
  | S n' =>
      if negb (PyStr.char_at p filenameIndex =? ".")%string then true
      else non_dot_before p (filenameIndex + 1) n'
  end.

(** [os.path.splitext(p)]: split at the last dot of the last path
    component, unless that component has only dots before it. *)
Definition splitext (p : string) : string * string :=
  let sepIndex := PyStr.rfind p sep_char in
  let dotIndex := PyStr.rfind p extsep_char in
  if (sepIndex <? dotIndex)%Z
     && non_dot_before p (sepIndex + 1) (Z.to_nat (dotIndex - (sepIndex + 1)))
  then (PyStr.slice_to p dotIndex, PyStr.slice_from p dotIndex)
  else (p, EmptyString).

(** A name made of dots only (the empty name included). *)
Fixpoint only_dots (s : string) : bool :=
  match s with
  | EmptyString => true
  | String a s' => Ascii.eqb a extsep_char && only_dots s'
  end.

End OsPath.

(** ** sorted() on file names *)

Module StringOrder <: TotalLeBool.
Definition t := string.
Definition leb : t -> t -> bool := String.leb.
Definition leb_total : forall a1 a2, leb a1 a2 = true \/ leb a2 a1 = true :=
  String.leb_total.
End StringOrder.

Module StringSort := Sort StringOrder.

(** [sorted(l)] for a list of [str]. *)
Definition sorted (l : list string) : list string := StringSort.sort l.

(** ** pandas

  The part of pandas the script relies on.  A DataFrame has a row index
  (one label per row) and one series of values per column.  [pd.read_csv]
  gives the default index [0 .. n-1] unless the data lines have one field
  more than the header, in which case the first field of every line is the
  row label.  [pd.concat(axis=1)] aligns the rows of its arguments by
  label, not by position.

  A value is held in the form [to_csv] writes it when the column is written
  as it stands (pandas parses what it reads: [1.50] is held as [1.5]); a
  missing value (NaN) is [None].  Column types are not tracked: what
  depends on them is asked of [Internals]. *)

Module Pandas.

(** A row label: an integer position, or anything else under its text.
    Two labels are the same label for pandas exactly when they are equal
    here. *)
Inductive label : Type :=
| Row (i : nat)
| Key (s : string).

Definition label_eqb (a b : label) : bool :=
  match a, b with
  | Row i, Row j => (i =? j)%nat
  | Key s, Key t => (s =? t)%string
  | _, _ => false
  end.

(** [a.equals(b)] on two indexes. *)
Fixpoint index_eqb (a b : list label) : bool :=
  match a, b with
  | [], [] => true
  | x :: a', y :: b' => label_eqb x y && index_eqb a' b'
  | _, _ => false
  end.

(** The default index of a table of [n] rows. *)
Definition range_index (n : nat) : list label := map Row (seq 0 n).

Definition cell : Type := option string.

Record DataFrame : Type := mkDF {
  index : list label;
  series : list (string * list cell)
}.

(** [df.shape[0]] *)
Definition nrows (df : DataFrame) : nat := List.length (index df).

(** [df.columns] *)
Definition columns (df : DataFrame) : list string := map fst (series df).

(** [df.shape[1]] *)
Definition width (df : DataFrame) : nat := List.length (series df).

(** [df.empty]: one of the two axes has length 0. *)
Definition empty (df : DataFrame) : bool :=
  (nrows df =? 0)%nat || (width df =? 0)%nat.

(** Every series has one value per row. *)
Definition well_formed (df : DataFrame) : Prop :=
  Forall (fun c => List.length (snd c) = nrows df) (series df).

(** [df.columns = names]: pandas refuses a list of another length. *)
Definition set_columns (df : DataFrame) (names : list string)
  : string + DataFrame :=
  if (List.length names =? width df)%nat
  then inr (mkDF (index df) (combine names (map snd (series df))))
  else inl "Length mismatch".

(** What pandas decides from the types of the values and from the kinds of
    the indexes, kept abstract:
    - [upcast values] is a column once converted to a type that can hold a
      missing value (an integer column becomes a float column, and [1] is
      then written [1.0]);
    - [combined_index indexes] is the row index [pd.concat(axis=1)] aligns
      its arguments on when their indexes are neither all equal nor all
      default ones, or the exception it raises when it cannot align them
      (labels repeated in a table that has to be realigned);
    - that index holds every label of every argument. *)
Record Internals : Type := mkInternals {
  upcast : list cell -> list cell;
  combined_index : list (list label) -> string + list label;
  combined_index_covers :
    forall indexes idx, combined_index indexes = inr idx ->
    forall i l, In i indexes -> In l i -> In l idx
}.

(** The position of the first row labelled [l]. *)
Fixpoint position (l : label) (idx : list label) : option nat :=
  match idx with
  | [] => None
  | x :: idx' =>
      if label_eqb l x then Some 0 else option_map S (position l idx')
  end.

Definition has_label (idx : list label) (l : label) : bool :=
  match position l idx with
  | Some _ => true
  | None => false
  end.

(** One column of a table of index [old], realigned on the index [new]:
    the value of a row is looked up under its label, and a label the table
    does not have gives a missing value; the column is converted first when
    it has to hold one. *)
Definition reindex (pd : Internals) (old new : list label)
    (values : list cell) : list cell :=
  let held := if forallb (has_label old) new then values else upcast pd values in
  map (fun l => match position l old with
                | Some p => nth p held None
                | None => None
                end) new.

(** A column of a table of index [old] in the result of index [new]:
    untouched when the table already has that index. *)
Definition aligned (pd : Internals) (old new : list label)
    (values : list cell) : list cell :=
  if index_eqb old new then values else reindex pd old new values.

(** The table has the default index. *)
Definition default_index (df : DataFrame) : bool :=
  index_eqb (index df) (range_index (nrows df)).

(** The row index of [pd.concat(dfs, axis=1)] for a first table [d] and
    the other tables [rest]: the common index when all are equal, the
    longest default index when all are default ones, and otherwise what
    pandas makes of the indexes. *)
Definition concat_index (pd : Internals) (d : DataFrame)
    (rest : list DataFrame) : string + list label :=
  if forallb (fun df => index_eqb (index df) (index d)) rest
  then inr (index d)
  else if forallb default_index (d :: rest)
  then inr (range_index (list_max (map nrows (d :: rest))))
  else combined_index pd (map index (d :: rest)).

(** [pd.concat(dfs, axis=1)] with its default [join='outer']: pandas
    raises on an empty list; otherwise the rows are aligned on the row
    index above and the columns of the arguments are put side by side in
    the order of the list, under their names. *)
Definition concat_axis1 (pd : Internals) (dfs : list DataFrame)
  : string + DataFrame :=
  match dfs with
  | [] => inl "No objects to concatenate"
  | d :: rest =>
      match concat_index pd d rest with
      | inl e => inl e
      | inr new =>
          inr (mkDF new
                 (flat_map
                    (fun df =>
                       map (fun c => (fst c, aligned pd (index df) new (snd c)))
                           (series df))
                    dfs))
      end
  end.

(** The text of a cell in a CSV file ([na_rep] is the empty string). *)
Definition render (c : cell) : string :=
  match c with
  | Some v => v
  | None => EmptyString
  end.

Definition string_of_nat (n : nat) : string :=
  NilEmpty.string_of_uint (Nat.to_uint n).

Definition label_text (l : label) : string :=
  match l with
  | Row i => string_of_nat i
  | Key s => s
  end.

(** Row [i] of the file written by [to_csv]. *)
Definition csv_row (df : DataFrame) (write_index : bool) (i : nat)
  : list string :=
  (if write_index then [label_text (nth i (index df) (Row i))] else [])
    ++ map (fun c => render (nth i (snd c) None)) (series df).

(** The text [df.to_csv(path, index=write_index)] writes: the header line
    and the data lines, each a list of fields.  With [index=True] a first
    column holds the row labels, under an empty header. *)
Definition to_csv (df : DataFrame) (write_index : bool) : list (list string) :=
  ((if write_index then [EmptyString] else []) ++ columns df)
    :: map (csv_row df write_index) (seq 0 (nrows df)).

End Pandas.

Import Pandas.

(** ** The script *)

Module Script.

(** What the script asks of the outside world.  [os_listdir] and
    [pd_read_csv] answer with [inl msg] when the call raises;
    [to_csv_error path] is the exception [to_csv] raises when it cannot
    write [path], if it cannot; [pandas] is what is kept abstract of
    pandas. *)
Record Env : Type := mkEnv {
  os_listdir : string -> string + list string;
  os_path_isdir : string -> bool;
  pd_read_csv : string -> string + DataFrame;
  to_csv_error : string -> option string;
  pandas : Internals
}.

(** The two switches, constants of the script. *)
Record Config : Type := mkConfig {
  merge_haralick : bool;
  merge_haar : bool
}.

(** Lines 86-87 of the source. *)
Definition source_config : Config := mkConfig true false.

(** The variable [dfs], standard output, and the files written. *)
Record State : Type := mkState {
  dfs : list DataFrame;
  stdout : list string;
  written : list (string * list (list string))
}.

Definition initial : State := mkState [] [] [].

(** A statement returns, raises an [Exception] (with [str(e)]), or raises
    [SystemExit]. *)
Inductive Res (A : Type) : Type :=
| Ok (a : A)
| Raise (e : string)
| SysExit (code : Z).

Arguments Ok {A} a.
Arguments Raise {A} e.
Arguments SysExit {A} code.

Definition M (A : Type) : Type := State -> Res A * State.

Definition ret {A} (a : A) : M A := fun st => (Ok a, st).

Definition bind {A B} (m : M A) (k : A -> M B) : M B :=
  fun st =>
    match m st with
    | (Ok a, st') => k a st'
    | (Raise e, st') => (Raise e, st')
    | (SysExit c, st') => (SysExit c, st')
    end.

Definition raise {A} (e : string) : M A := fun st => (Raise e, st).

(** [exit(code)] *)
Definition exit {A} (code : Z) : M A := fun st => (SysExit code, st).

(** A call that answers or raises. *)
Definition lift {A} (r : string + A) : M A :=
  match r with
  | inl e => raise e
  | inr a => ret a
  end.

(** [try: body except Exception as e: handler(str(e))].  [SystemExit] is
    not an [Exception] and passes through. *)
Definition try_except {A} (body : M A) (handler : string -> M A) : M A :=
  fun st =>
    match body st with
    | (Raise e, st') => handler e st'
    | r => r
    end.

Definition print (line : string) : M unit :=
  fun st => (Ok tt, mkState (dfs st) (stdout st ++ [line]) (written st)).

Definition get_dfs : M (list DataFrame) := fun st => (Ok (dfs st), st).

Definition set_dfs (l : list DataFrame) : M unit :=
  fun st => (Ok tt, mkState l (stdout st) (written st)).

(** [dfs.append(df)] *)
Definition dfs_append (df : DataFrame) : M unit :=
  fun st => (Ok tt, mkState (dfs st ++ [df]) (stdout st) (written st)).

(** [for x in l: body(x)] *)
Fixpoint for_each {A} (l : list A) (body : A -> M unit) : M unit :=
  match l with
  | [] => ret tt
  | x :: l' => bind (body x) (fun _ => for_each l' body)
  end.

Notation "x <- m ;; k" := (bind m (fun x => k))
  (at level 61, m at next level, right associativity).
Notation "m ;; k" := (bind m (fun _ => k))
  (at level 61, right associativity).

(** *** Constants of the script (lines 38-45) *)

Definition folder_path : string := ("2kyr_new" ++ OsPath.sep)%string.
Definition folder_haralick : string := ("haralick_files" ++ OsPath.sep)%string.
Definition folder_haarlike : string := ("haar_files" ++ OsPath.sep)%string.

Section WithEnv.

Variable env : Env.

(** [sorted([f for f in os.listdir(folder) if f.endswith('.csv')])]
    (lines 51, 94 and 122). *)
Definition csv_listing (folder : string) : M (list string) :=
  names <- lift (os_listdir env folder) ;;
  ret (sorted (filter (fun f => PyStr.endswith f ".csv") names)).

(** *** The body of the three loops

    The three loops (lines 60-79, 97-114, 124-143) run the same statements
    and differ in the lines they print before reading and in the identifier
    they put before the column names.  [announce file path] is the list of
    those lines, [ident file] the identifier. *)
Definition load_file (announce : string -> string -> list string)
    (ident : string -> string) (folder file : string) : M unit :=
  let file_path := OsPath.join folder file in
  for_each (announce file file_path) print ;;
  try_except
    (df <- lift (pd_read_csv env file_path) ;;
     if empty df then
       print ("The file " ++ file ++ " is empty. Skipping.")
       (* continue *)
     else
       let file_name := ident file in
       df' <- lift (set_columns df
                      (map (fun col => file_name ++ "_" ++ col)%string
                           (columns df))) ;;
       dfs_append df')
    (fun e => print ("Error reading file " ++ file ++ ": " ++ e)).

(** Lines 72, 107 and 136. *)
Definition base_ident (file : string) : string :=
  fst (OsPath.splitext file).

Definition haralick_ident (harafile : string) : string :=
  PyStr.replace (fst (OsPath.splitext harafile)) "_haralick" "".

Definition haar_ident (haarfile : string) : string :=
  PyStr.replace (fst (OsPath.splitext haarfile)) "_haar" "".

(** Lines 63, 99 and 126-128. *)
Definition base_announce (file file_path : string) : list string :=
  [("Merging: " ++ file_path)%string].

Definition haralick_announce (harafile harafile_path : string) : list string :=
  [(PyStr.tab ++ "Adding: " ++ harafile_path)%string].

Definition haar_announce (haarfile haarfile_path : string) : list string :=
  [haarfile; (PyStr.tab ++ "Adding: " ++ haarfile_path)%string].

Definition load_base : string -> M unit :=
  load_file base_announce base_ident folder_path.

Definition load_haralick : string -> M unit :=
  load_file haralick_announce haralick_ident folder_haralick.

Definition load_haar : string -> M unit :=
  load_file haar_announce haar_ident folder_haarlike.

(** *** The stages of the script *)

(** Lines 51-83: the base directory, and the check on [dfs]. *)
Definition base_stage : M unit :=
  csv_files <- csv_listing folder_path ;;
  (match csv_files with
   | [] => print "No CSV files found in the specified folder."
   | _ :: _ => ret tt
   end) ;;
  set_dfs [] ;;
  for_each csv_files load_base ;;
  l <- get_dfs ;;
  match l with
  | [] =>
      print "No valid DataFrames to merge. Ensure CSV files are not empty and are readable." ;;
      exit 1
  | _ :: _ => ret tt
  end.

(** Lines 92-117. *)
Definition haralick_stage (cfg : Config) : M unit :=
  if merge_haralick cfg then
    if os_path_isdir env folder_haralick then
      haralick_files <- csv_listing folder_haralick ;;
      print (PyStr.nl ++ "Merging Haralick files...") ;;
      for_each haralick_files load_haralick
    else print "No directory found for Haralick features"
  else ret tt.

(** Lines 120-145. *)
Definition haar_stage (cfg : Config) : M unit :=
  if merge_haar cfg then
    if os_path_isdir env folder_haarlike then
      haarfiles <- csv_listing folder_haarlike ;;
      print (PyStr.nl ++ "Merging Haar-like files...") ;;
      for_each haarfiles load_haar
    else print "No directory found for Haar-like features"
  else ret tt.

(** Lines 152-159. *)
Definition suffix (cfg : Config) : string :=
  if merge_haralick cfg && merge_haar cfg then "_AllColumns_imgfeatures"
  else if merge_haralick cfg && negb (merge_haar cfg) then "_AllColumns_onlyHaralick"
  else if negb (merge_haralick cfg) && merge_haar cfg then "_AllColumns_onlyHaar"
  else "_AllColumns".

(** Line 162. *)
Definition output_filename (cfg : Config) : string :=
  (PyStr.slice_to folder_path (-1) ++ suffix cfg ++ ".csv")%string.

(** Writing a file: the call raises, or the file is there. *)
Definition write_file (name : string) (content : list (list string)) : M unit :=
  fun st =>
    match to_csv_error env name with
    | Some e => (Raise e, st)
    | None =>
        (Ok tt, mkState (dfs st) (stdout st) (written st ++ [(name, content)]))
    end.

(** Lines 148-165.  Neither [pd.concat] nor [to_csv] is inside a [try]. *)
Definition save_stage (cfg : Config) : M unit :=
  print "Saving Final Dataset..." ;;
  l <- get_dfs ;;
  merged_df <- lift (concat_axis1 (pandas env) l) ;;
  write_file (output_filename cfg) (to_csv merged_df false) ;;
  print "CSV files merged successfully!".

Definition script (cfg : Config) : M unit :=
  base_stage ;;
  haralick_stage cfg ;;
  haar_stage cfg ;;
  save_stage cfg.

(** One run of the script, from an empty state. *)
Definition run (cfg : Config) : Res unit * State := script cfg initial.

End WithEnv.

(** The exit status of the interpreter: 0 after the last statement, the
    argument of [exit], and 1 after an exception nobody caught. *)
Definition exit_status (r : Res unit * State) : Z :=
  match fst r with
  | Ok _ => 0
  | Raise _ => 1
  | SysExit code => code
  end.

End Script.

Import Script.

(** ** What each file and each directory contributes

    Closed forms of the loops, proved equal to the code below
    ([load_file_spec], [for_each_load_spec]). *)

Section Contributions.

Variable env : Env.

(** The table [df] after [df.columns = [f"{name}_{col}" ...]]. *)
Definition prefixed (name : string) (df : DataFrame) : DataFrame :=
  mkDF (index df)
       (map (fun c => ((name ++ "_" ++ fst c)%string, snd c)) (series df)).

(** The tables one file adds to [dfs]: none or one. *)
Definition contribution (ident : string -> string) (folder file : string)
  : list DataFrame :=
  match pd_read_csv env (OsPath.join folder file) with
  | inl _ => []
  | inr df => if empty df then [] else [prefixed (ident file) df]
  end.

(** The line printed once the file has been read, if any. *)
Definition verdict (folder file : string) : list string :=
  match pd_read_csv env (OsPath.join folder file) with
  | inl e => [("Error reading file " ++ file ++ ": " ++ e)%string]
  | inr df =>
      if empty df then [("The file " ++ file ++ " is empty. Skipping.")%string]
      else []
  end.

Definition file_log (announce : string -> string -> list string)
    (folder file : string) : list string :=
  announce file (OsPath.join folder file) ++ verdict folder file.

(** The [.csv] names of a directory listing, sorted. *)
Definition csv_names (names : list string) : list string :=
  sorted (filter (fun f => PyStr.endswith f ".csv") names).

(** The files of a directory the script loads; none when [os.listdir]
    raises. *)
Definition csv_files_of (folder : string) : list string :=
  match os_listdir env folder with
  | inl _ => []
  | inr names => csv_names names
  end.

Definition base_tables : list DataFrame :=
  flat_map (contribution base_ident folder_path) (csv_files_of folder_path).

Definition haralick_tables : list DataFrame :=
  if os_path_isdir env folder_haralick
  then flat_map (contribution haralick_ident folder_haralick)
                (csv_files_of folder_haralick)
  else [].

Definition haar_tables : list DataFrame :=
  if os_path_isdir env folder_haarlike
  then flat_map (contribution haar_ident folder_haarlike)
                (csv_files_of folder_haarlike)
  else [].

(** The tables of all the directories the switches enable, in the order
    base, Haralick, Haar. *)
Definition all_tables (cfg : Config) : list DataFrame :=
  base_tables
    ++ (if merge_haralick cfg then haralick_tables else [])
    ++ (if merge_haar cfg then haar_tables else []).

(** The two optional stages have one shape; [haralick_stage] and
    [haar_stage] are its instances ([haralick_stage_shape],
    [haar_stage_shape]). *)
Definition optional_stage (enabled : bool) (folder title missing : string)
    (announce : string -> string -> list string) (ident : string -> string)
  : M unit :=
  if enabled then
    if os_path_isdir env folder then
      files <- csv_listing env folder ;;
      print title ;;
      for_each files (load_file env announce ident folder)
    else print missing
  else ret tt.

Definition optional_tables (enabled : bool) (folder : string)
    (ident : string -> string) : list DataFrame :=
  if enabled && os_path_isdir env folder
  then flat_map (contribution ident folder) (csv_files_of folder)
  else [].

Definition optional_log (enabled : bool) (folder title missing : string)
    (announce : string -> string -> list string) : list string :=
  if enabled then
    if os_path_isdir env folder
    then title :: flat_map (file_log announce folder) (csv_files_of folder)
    else [missing]
  else [].

Definition msg_no_csv : string :=
  "No CSV files found in the specified folder.".

Definition msg_no_valid : string :=
  "No valid DataFrames to merge. Ensure CSV files are not empty and are readable.".

Definition haralick_title : string := (PyStr.nl ++ "Merging Haralick files...")%string.
Definition haralick_missing : string := "No directory found for Haralick features".
Definition haar_title : string := (PyStr.nl ++ "Merging Haar-like files...")%string.
Definition haar_missing : string := "No directory found for Haar-like features".

(** Standard output of the base stage when the listing succeeds. *)
Definition base_log : list string :=
  (match csv_files_of folder_path with [] => [msg_no_csv] | _ :: _ => [] end)
    ++ flat_map (file_log base_announce folder_path) (csv_files_of folder_path)
    ++ (match base_tables with [] => [msg_no_valid] | _ :: _ => [] end).

Definition haralick_log (cfg : Config) : list string :=
  optional_log (merge_haralick cfg) folder_haralick
               haralick_title haralick_missing haralick_announce.

Definition haar_log (cfg : Config) : list string :=
  optional_log (merge_haar cfg) folder_haarlike
               haar_title haar_missing haar_announce.

(** An optional directory that the script lists although it cannot be
    listed. *)
Definition listing_fails (enabled : bool) (folder e : string) : Prop :=
  enabled = true /\ os_path_isdir env folder = true
  /\ os_listdir env folder = inl e.

(** Standard output when the run reaches [pd.concat]. *)
Definition log_before_concat (cfg : Config) : list string :=
  base_log ++ haralick_log cfg ++ haar_log cfg ++ ["Saving Final Dataset..."].

(** The seven ways a run can end. *)
Inductive Outcome (cfg : Config) : Res unit * State -> Prop :=
| base_unlistable e :
    os_listdir env folder_path = inl e ->
    Outcome cfg (Raise e, initial)
| nothing_loaded names :
    os_listdir env folder_path = inr names ->
    base_tables = [] ->
    Outcome cfg (SysExit 1, mkState [] base_log [])
| haralick_unlistable names e :
    os_listdir env folder_path = inr names ->
    base_tables <> [] ->
    listing_fails (merge_haralick cfg) folder_haralick e ->
    Outcome cfg (Raise e, mkState base_tables base_log [])
| haar_unlistable names e :
    os_listdir env folder_path = inr names ->
    base_tables <> [] ->
    (forall e', ~ listing_fails (merge_haralick cfg) folder_haralick e') ->
    listing_fails (merge_haar cfg) folder_haarlike e ->
    Outcome cfg
      (Raise e,
       mkState (base_tables ++ (if merge_haralick cfg then haralick_tables else []))
               (base_log ++ haralick_log cfg) [])
| concat_raises names e :
    os_listdir env folder_path = inr names ->
    base_tables <> [] ->
    (forall e', ~ listing_fails (merge_haralick cfg) folder_haralick e') ->
    (forall e', ~ listing_fails (merge_haar cfg) folder_haarlike e') ->
    concat_axis1 (pandas env) (all_tables cfg) = inl e ->
    Outcome cfg (Raise e, mkState (all_tables cfg) (log_before_concat cfg) [])
| to_csv_raises names m e :
    os_listdir env folder_path = inr names ->
    base_tables <> [] ->
    (forall e', ~ listing_fails (merge_haralick cfg) folder_haralick e') ->
    (forall e', ~ listing_fails (merge_haar cfg) folder_haarlike e') ->
    concat_axis1 (pandas env) (all_tables cfg) = inr m ->
    to_csv_error env (output_filename cfg) = Some e ->
    Outcome cfg (Raise e, mkState (all_tables cfg) (log_before_concat cfg) [])
| merged names m :
    os_listdir env folder_path = inr names ->
    base_tables <> [] ->
    (forall e', ~ listing_fails (merge_haralick cfg) folder_haralick e') ->
    (forall e', ~ listing_fails (merge_haar cfg) folder_haarlike e') ->
    concat_axis1 (pandas env) (all_tables cfg) = inr m ->
    to_csv_error env (output_filename cfg) = None ->
    Outcome cfg
      (Ok tt,
       mkState (all_tables cfg)
               (base_log ++ haralick_log cfg ++ haar_log cfg
                  ++ ["Saving Final Dataset..."; "CSV files merged successfully!"])
               [(output_filename cfg, to_csv m false)]).

End Contributions.

(** ** The three loops, by name *)

Inductive loop : Type := BaseLoop | HaralickLoop | HaarLoop.

Definition loop_folder (k : loop) : string :=
  match k with
  | BaseLoop => folder_path
  | HaralickLoop => folder_haralick
  | HaarLoop => folder_haarlike
  end.

Definition loop_ident (k : loop) : string -> string :=
  match k with
  | BaseLoop => base_ident
  | HaralickLoop => haralick_ident
  | HaarLoop => haar_ident
  end.

Definition loop_announce (k : loop) : string -> string -> list string :=
  match k with
  | BaseLoop => base_announce
  | HaralickLoop => haralick_announce
  | HaarLoop => haar_announce
  end.

(** The body of the loop, as the script has it. *)
Definition loop_body (env : Env) (k : loop) : string -> M unit :=
  match k with
  | BaseLoop => load_base env
  | HaralickLoop => load_haralick env
  | HaarLoop => load_haar env
  end.

(** The suffix a loop removes from the stem (lines 107 and 136); the base
    loop removes none (line 72). *)
Definition stripped_suffix (k : loop) : option string :=
  match k with
  | BaseLoop => None
  | HaralickLoop => Some "_haralick"
  | HaarLoop => Some "_haar"
  end.

(** ** Small file systems to run the script on *)

Module Fixtures.

Fixpoint lookup {A} (k : string) (l : list (string * A)) : option A :=
  match l with
  | [] => None
  | (k', v) :: l' => if (k =? k')%string then Some v else lookup k l'
  end.

(** The row labels of the tables [indexes], each once, in the order in
    which they first come. *)
Fixpoint add_labels (seen ls : list label) : list label :=
  match ls with
  | [] => seen
  | l :: ls' => add_labels (if has_label seen l then seen else seen ++ [l]) ls'
  end.

Definition union_labels (indexes : list (list label)) : list label :=
  fold_left add_labels indexes [].

Fixpoint repeated (idx : list label) : bool :=
  match idx with
  | [] => false
  | l :: idx' => has_label idx' l || repeated idx'
  end.

(** What pandas does on the tables of these file systems, which hold small
    integers: an integer is written with [.0] once its column holds a
    missing value; tables with labels of their own are aligned on the union
    of their labels, and pandas refuses to realign a table whose labels are
    repeated. *)
Program Definition small_integers : Internals :=
  mkInternals
    (map (option_map (fun v => v ++ ".0")%string))
    (fun indexes =>
       if existsb repeated indexes
       then inl "Reindexing only valid with uniquely valued Index objects"
       else inr (union_labels indexes))
    _.
Next Obligation.
  destruct (existsb repeated indexes); [discriminate|].
  injection H as <-.
  assert (Heq : forall a b, label_eqb a b = true -> a = b).
  { intros [n|t] [n'|t']; simpl; try discriminate.
    - intros E. apply Nat.eqb_eq in E. now subst.
    - intros E. apply String.eqb_eq in E. now subst. }
  assert (Hpos : forall idx x, has_label idx x = true -> In x idx).
  { unfold has_label. induction idx as [|y idx IH]; intros x; simpl;
      [discriminate|].
    destruct (label_eqb x y) eqn:E; [left; symmetry; now apply Heq|].
    intros Hx. right. apply IH. now destruct (position x idx). }
  assert (Hadd : forall ls seen x, In x seen \/ In x ls -> In x (add_labels seen ls)).
  { induction ls as [|y ls IH]; intros seen x [Hx|Hx]; simpl;
      try contradiction; try assumption.
    - apply IH. left. destruct (has_label seen y); [assumption|].
      apply in_or_app. now left.
    - apply IH. destruct Hx as [->|Hx]; [left|now right].
      destruct (has_label seen x) eqn:E; [now apply Hpos|].
      apply in_or_app. right. now left. }
  unfold union_labels.
  assert (Hfold : forall idxs seen,
            (In l seen \/ exists j, In j idxs /\ In l j) ->
            In l (fold_left add_labels idxs seen)).
  { induction idxs as [|j idxs IH]; intros seen [Hl|(k & Hk & Hl)]; simpl;
      try contradiction; try assumption.
    - apply IH. left. apply Hadd. now left.
    - apply IH. destruct Hk as [->|Hk].
      + left. apply Hadd. now right.
      + right. now exists k. }
  apply Hfold. right. now exists i.
Qed.

(** An environment from a table of directories and a table of files; what
    is not in the tables does not exist, and the output file can be
    written. *)
Definition env_of (dirs : list (string * list string))
    (files : list (string * (string + DataFrame))) : Env :=
  mkEnv
    (fun d => match lookup d dirs with
              | Some names => inr names
              | None =>
                  inl ("[Errno 2] No such file or directory: '" ++ d ++ "'")%string
              end)
    (fun d => match lookup d dirs with Some _ => true | None => false end)
    (fun f => match lookup f files with
              | Some r => r
              | None =>
                  inl ("[Errno 2] No such file or directory: '" ++ f ++ "'")%string
              end)
    (fun _ => None)
    small_integers.

(** A table with the given columns and the default index, every cell
    holding [v]. *)
Definition table (cols : list string) (n : nat) (v : string) : DataFrame :=
  mkDF (range_index n) (map (fun c => (c, repeat (Some v) n)) cols).

(** The scenario of the specification, with a text file and the two
    auxiliary directories besides. *)
Definition scenario : Env :=
  env_of
    [("2kyr_new/", ["img2.csv"; "notes.txt"; "img1.csv"]);
     ("haralick_files/", ["sample1_haralick.csv"]);
     ("haar_files/", ["sample1_haar.csv"])]
    [("2kyr_new/img1.csv", inr (table ["a"; "b"] 2 "1"));
     ("2kyr_new/img2.csv", inr (table ["a"; "c"] 2 "2"));
     ("haralick_files/sample1_haralick.csv", inr (table ["h"] 2 "9"));
     ("haar_files/sample1_haar.csv", inr (table ["w"] 2 "5"))].

(** A base directory without CSV files next to a Haralick directory with
    a good file. *)
Definition only_haralick : Env :=
  env_of
    [("2kyr_new/", ["readme.txt"]);
     ("haralick_files/", ["sample1_haralick.csv"])]
    [("haralick_files/sample1_haralick.csv", inr (table ["h"] 2 "9"))].

(** Two base files of one and two rows. *)
Definition uneven : Env :=
  env_of
    [("2kyr_new/", ["a.csv"; "b.csv"])]
    [("2kyr_new/a.csv", inr (table ["x"] 1 "1"));
     ("2kyr_new/b.csv", inr (table ["y"] 2 "2"))].

(** Auxiliary files whose stems hold the suffix twice. *)
Definition doubled : Env :=
  env_of
    [("2kyr_new/", ["img1.csv"]);
     ("haralick_files/", ["a_haralick_b_haralick.csv"]);
     ("haar_files/", ["x_haar_y_haar.csv"; "p_haar_q.csv"])]
    [("2kyr_new/img1.csv", inr (table ["a"] 1 "1"));
     ("haralick_files/a_haralick_b_haralick.csv", inr (table ["h"] 1 "9"));
     ("haar_files/x_haar_y_haar.csv", inr (table ["w"] 1 "7"));
     ("haar_files/p_haar_q.csv", inr (table ["w"] 1 "8"))].

(** A base directory with a file pandas cannot parse and a file with a
    header and no row, and no directory for the auxiliary groups. *)
Definition damaged : Env :=
  env_of
    [("2kyr_new/", ["broken.csv"; "empty.csv"; "img1.csv"])]
    [("2kyr_new/broken.csv", inl "Error tokenizing data");
     ("2kyr_new/empty.csv", inr (table ["a"; "b"] 0 ""));
     ("2kyr_new/img1.csv", inr (table ["a"; "b"] 2 "1"))].

(** Nothing exists. *)
Definition nowhere : Env := env_of [] [].

Definition plain : Config := mkConfig false false.
Definition both : Config := mkConfig true true.

End Fixtures.

(** ** Environments that list the same files in another order

    [os.listdir] returns the names of a directory in arbitrary order. *)

Definition same_listing (r r' : string + list string) : Prop :=
  match r, r' with
  | inl e, inl e' => e = e'
  | inr names, inr names' => Permutation names names'
  | _, _ => False
  end.

Definition same_files (env env' : Env) : Prop :=
  (forall d, same_listing (os_listdir env d) (os_listdir env' d))
  /\ (forall d, os_path_isdir env d = os_path_isdir env' d)
  /\ (forall f, pd_read_csv env f = pd_read_csv env' f)
  /\ (forall f, to_csv_error env f = to_csv_error env' f)
  /\ (forall values, upcast (pandas env) values = upcast (pandas env') values)
  /\ (forall indexes,
      combined_index (pandas env) indexes = combined_index (pandas env') indexes).

(** ** More file systems *)

Module MoreFixtures.

(** A base file and a Haralick file of the same sample, with a column of
    the same name. *)
Definition colliding : Env :=
  Fixtures.env_of
    [("2kyr_new/", ["sample1.csv"]);
     ("haralick_files/", ["sample1_haralick.csv"])]
    [("2kyr_new/sample1.csv", inr (Fixtures.table ["a"; "b"] 2 "1"));
     ("haralick_files/sample1_haralick.csv", inr (Fixtures.table ["a"] 2 "9"))].

(** [Fixtures.scenario] with the base directory listed in another order. *)
Definition shuffled : Env :=
  Fixtures.env_of
    [("2kyr_new/", ["img1.csv"; "img2.csv"; "notes.txt"]);
     ("haralick_files/", ["sample1_haralick.csv"]);
     ("haar_files/", ["sample1_haar.csv"])]
    [("2kyr_new/img1.csv", inr (Fixtures.table ["a"; "b"] 2 "1"));
     ("2kyr_new/img2.csv", inr (Fixtures.table ["a"; "c"] 2 "2"));
     ("haralick_files/sample1_haralick.csv", inr (Fixtures.table ["h"] 2 "9"));
     ("haar_files/sample1_haar.csv", inr (Fixtures.table ["w"] 2 "5"))].

(** A Haralick directory that exists and cannot be listed. *)
Definition locked : Env :=
  mkEnv
    (fun d => if (d =? "haralick_files/")%string
              then inl "[Errno 13] Permission denied: 'haralick_files/'"
              else os_listdir Fixtures.scenario d)
    (os_path_isdir Fixtures.scenario)
    (pd_read_csv Fixtures.scenario)
    (to_csv_error Fixtures.scenario)
    (pandas Fixtures.scenario).

(** [Fixtures.scenario] where the name of the output is taken by a
    directory. *)
Definition unwritable : Env :=
  mkEnv
    (os_listdir Fixtures.scenario)
    (os_path_isdir Fixtures.scenario)
    (pd_read_csv Fixtures.scenario)
    (fun f => Some ("[Errno 21] Is a directory: '" ++ f ++ "'")%string)
    (pandas Fixtures.scenario).

(** A table whose data lines have one field more than the header: the
    first field of each line is the row label. *)
Definition labelled (rows : list string) (col v : string) : DataFrame :=
  mkDF (map Key rows) [(col, map (fun _ => Some v) rows)].

(** Two base files of two rows each, under labels of their own. *)
Definition apart : Env :=
  Fixtures.env_of
    [("2kyr_new/", ["a.csv"; "b.csv"])]
    [("2kyr_new/a.csv", inr (labelled ["r1"; "r2"] "x" "1"));
     ("2kyr_new/b.csv", inr (labelled ["r3"; "r4"] "y" "2"))].

(** Two base files whose lines repeat a label, not the same ones. *)
Definition repeating : Env :=
  Fixtures.env_of
    [("2kyr_new/", ["a.csv"; "b.csv"])]
    [("2kyr_new/a.csv", inr (labelled ["r1"; "r1"] "x" "1"));
     ("2kyr_new/b.csv", inr (labelled ["r1"; "r2"] "y" "2"))].

End MoreFixtures.

(** * Proofs *)

(** ** The model on concrete inputs *)

Example splitext_img1 : OsPath.splitext "img1.csv" = ("img1", ".csv").
Proof. reflexivity. Qed.

Example splitext_two_dots : OsPath.splitext "a.b.csv" = ("a.b", ".csv").
Proof. reflexivity. Qed.

Example splitext_hidden : OsPath.splitext ".csv" = (".csv", "").
Proof. reflexivity. Qed.

Example join_folder : OsPath.join "2kyr_new/" "img1.csv" = "2kyr_new/img1.csv".
Proof. reflexivity. Qed.

Example endswith_csv :
  PyStr.endswith "img1.csv" ".csv" = true
  /\ PyStr.endswith "notes.txt" ".csv" = false
  /\ PyStr.endswith "csv" ".csv" = false.
Proof. repeat split. Qed.

Example replace_empty_old : PyStr.replace "ab" "" "-" = "-a-b-".
Proof. reflexivity. Qed.

Example replace_leaves_new_occurrence :
  PyStr.replace "_hara_haralicklick" "_haralick" "" = "_haralick".
Proof. reflexivity. Qed.

Example sorted_by_code_point :
  sorted ["b.csv"; "a10.csv"; "B.csv"; "a2.csv"]
  = ["B.csv"; "a10.csv"; "a2.csv"; "b.csv"].
Proof. reflexivity. Qed.

(** Tables of two rows each under labels of their own: [pd.concat] aligns
    by label and the file written has four data lines. *)
Example labels_apart :
  written (snd (run MoreFixtures.apart Fixtures.plain))
  = [("2kyr_new_AllColumns.csv",
      [["a_x"; "b_y"]; ["1.0"; ""]; ["1.0"; ""]; [""; "2.0"]; [""; "2.0"]])].
Proof. reflexivity. Qed.

(** Repeated labels in a table that has to be realigned: [pd.concat]
    raises, outside any [try]. *)
Example labels_repeated :
  fst (run MoreFixtures.repeating Fixtures.plain)
  = Raise "Reindexing only valid with uniquely valued Index objects".
Proof. reflexivity. Qed.

(** The scenario of the specification: two base files, both switches
    off. *)
Example scenario_run :
  run Fixtures.scenario Fixtures.plain
  = (Ok tt,
     mkState
       [prefixed "img1" (Fixtures.table ["a"; "b"] 2 "1");
        prefixed "img2" (Fixtures.table ["a"; "c"] 2 "2")]
       ["Merging: 2kyr_new/img1.csv"; "Merging: 2kyr_new/img2.csv";
        "Saving Final Dataset..."; "CSV files merged successfully!"]
       [("2kyr_new_AllColumns.csv",
         [["img1_a"; "img1_b"; "img2_a"; "img2_c"];
          ["1"; "1"; "2"; "2"];
          ["1"; "1"; "2"; "2"]])]).
Proof. reflexivity. Qed.

(** ** The monad and the loops *)

Lemma bind_ok {A B} (m : M A) (k : A -> M B) st a st' :
  m st = (Ok a, st') -> bind m k st = k a st'.
Proof. intros H. unfold bind. now rewrite H. Qed.

Lemma bind_raise {A B} (m : M A) (k : A -> M B) st e st' :
  m st = (Raise e, st') -> bind m k st = (Raise e, st').
Proof. intros H. unfold bind. now rewrite H. Qed.

Lemma bind_exit {A B} (m : M A) (k : A -> M B) st c st' :
  m st = (SysExit c, st') -> bind m k st = (SysExit c, st').
Proof. intros H. unfold bind. now rewrite H. Qed.

Lemma state_eta st : mkState (dfs st) (stdout st) (written st) = st.
Proof. now destruct st. Qed.

Lemma for_each_print lines st :
  for_each lines print st
  = (Ok tt, mkState (dfs st) (stdout st ++ lines) (written st)).
Proof.
  revert st. induction lines as [|l lines IH]; intros st; simpl.
  - unfold ret. now rewrite app_nil_r, state_eta.
  - unfold bind, print at 1. rewrite IH. simpl.
    now rewrite <- app_assoc.
Qed.

Lemma combine_map_fst_snd {A B C} (f : A -> C) (l : list (A * B)) :
  combine (map f (map fst l)) (map snd l) = map (fun c => (f (fst c), snd c)) l.
Proof. induction l as [|[a b] l IH]; simpl; congruence. Qed.

Lemma set_columns_prefixed name df :
  set_columns df (map (fun col => name ++ "_" ++ col)%string (columns df))
  = inr (prefixed name df).
Proof.
  unfold set_columns, columns, width, prefixed.
  rewrite !length_map, Nat.eqb_refl.
  now rewrite combine_map_fst_snd.
Qed.

Section LoopLemmas.

Variable env : Env.
Variable announce : string -> string -> list string.
Variable ident : string -> string.
Variable folder : string.

(** One turn of a loop always returns: it extends [dfs] by the file's
    contribution and standard output by the file's lines. *)
Lemma load_file_spec file st :
  load_file env announce ident folder file st
  = (Ok tt,
     mkState (dfs st ++ contribution env ident folder file)
             (stdout st ++ file_log env announce folder file)
             (written st)).
Proof.
  unfold load_file, file_log, contribution, verdict.
  erewrite bind_ok by apply for_each_print.
  unfold try_except, bind, lift.
  destruct (pd_read_csv env (OsPath.join folder file)) as [e|df]; simpl.
  - unfold print; simpl. now rewrite app_nil_r, app_assoc.
  - destruct (empty df); simpl.
    + now rewrite app_nil_r, app_assoc.
    + rewrite set_columns_prefixed. simpl.
      now rewrite app_nil_r.
Qed.

(** A whole loop always returns, with the contributions and the lines of
    its files in order. *)
Lemma for_each_load_spec files st :
  for_each files (load_file env announce ident folder) st
  = (Ok tt,
     mkState (dfs st ++ flat_map (contribution env ident folder) files)
             (stdout st ++ flat_map (file_log env announce folder) files)
             (written st)).
Proof.
  revert st. induction files as [|f files IH]; intros st; simpl.
  - unfold ret. now rewrite !app_nil_r, state_eta.
  - erewrite bind_ok by apply load_file_spec.
    rewrite IH. simpl. now rewrite <- !app_assoc.
Qed.

End LoopLemmas.

(** ** The stages *)

Section StageLemmas.

Variable env : Env.

Lemma csv_listing_ok folder names st :
  os_listdir env folder = inr names ->
  csv_listing env folder st = (Ok (csv_names names), st).
Proof. intros H. unfold csv_listing, bind, lift. now rewrite H. Qed.

Lemma csv_listing_raise folder e st :
  os_listdir env folder = inl e ->
  csv_listing env folder st = (Raise e, st).
Proof. intros H. unfold csv_listing, bind, lift. now rewrite H. Qed.

Lemma csv_files_of_ok folder names :
  os_listdir env folder = inr names -> csv_files_of env folder = csv_names names.
Proof. intros H. unfold csv_files_of. now rewrite H. Qed.

Lemma haralick_stage_shape cfg :
  haralick_stage env cfg
  = optional_stage env (merge_haralick cfg) folder_haralick
      haralick_title haralick_missing haralick_announce haralick_ident.
Proof. reflexivity. Qed.

Lemma haar_stage_shape cfg :
  haar_stage env cfg
  = optional_stage env (merge_haar cfg) folder_haarlike
      haar_title haar_missing haar_announce haar_ident.
Proof. reflexivity. Qed.

(** The base stage raises when the directory cannot be listed. *)
Lemma base_stage_raise e st :
  os_listdir env folder_path = inl e ->
  base_stage env st = (Raise e, st).
Proof.
  intros H. unfold base_stage.
  now erewrite bind_raise by (apply csv_listing_raise; eassumption).
Qed.

(** Otherwise it resets [dfs], loads the files and checks [dfs]. *)
Lemma base_stage_listed names st :
  os_listdir env folder_path = inr names ->
  base_stage env st
  = (match base_tables env with [] => SysExit 1 | _ :: _ => Ok tt end,
     mkState (base_tables env) (stdout st ++ base_log env) (written st)).
Proof.
  intros H. unfold base_stage, base_log, base_tables.
  erewrite bind_ok by (apply csv_listing_ok; eassumption).
  rewrite (csv_files_of_ok _ _ H).
  set (files := csv_names names).
  assert (Hfirst : forall k : M unit,
    bind (match files with
          | [] => print "No CSV files found in the specified folder."
          | _ :: _ => ret tt
          end) (fun _ => k) st
    = k (mkState (dfs st)
           (stdout st ++ match files with [] => [msg_no_csv] | _ :: _ => [] end)
           (written st))).
  { intros k. destruct files; unfold bind, print, ret; simpl.
    - reflexivity.
    - now rewrite app_nil_r, state_eta. }
  rewrite Hfirst. unfold bind at 1, set_dfs at 1. simpl.
  unfold load_base.
  erewrite bind_ok by apply for_each_load_spec.
  unfold bind at 1, get_dfs at 1. simpl.
  destruct (flat_map (contribution env base_ident folder_path) files); simpl.
  - unfold bind, print, exit; simpl. now rewrite <- !app_assoc.
  - unfold ret. now rewrite app_nil_r, <- !app_assoc.
Qed.

Lemma listing_fails_dec (enabled : bool) (folder : string) :
  (exists e, listing_fails env enabled folder e)
  \/ (forall e, ~ listing_fails env enabled folder e).
Proof.
  unfold listing_fails.
  destruct enabled; [|right; intros e (H & _); discriminate].
  destruct (os_path_isdir env folder); [|right; intros e (_ & H & _); discriminate].
  destruct (os_listdir env folder) as [e|names].
  - left. now exists e.
  - right. intros e (_ & _ & H). discriminate.
Qed.

Section Optional.

Variables (enabled : bool) (folder title missing : string).
Variable announce : string -> string -> list string.
Variable ident : string -> string.

(** An optional stage raises only when it lists a directory that cannot be
    listed. *)
Lemma optional_stage_raise e st :
  listing_fails env enabled folder e ->
  optional_stage env enabled folder title missing announce ident st
  = (Raise e, st).
Proof.
  intros (He & Hd & Hl). unfold optional_stage. rewrite He, Hd.
  now erewrite bind_raise by (apply csv_listing_raise; eassumption).
Qed.

(** Otherwise it returns, with the directory's tables appended. *)
Lemma optional_stage_ok st :
  (forall e, ~ listing_fails env enabled folder e) ->
  optional_stage env enabled folder title missing announce ident st
  = (Ok tt,
     mkState (dfs st ++ optional_tables env enabled folder ident)
             (stdout st ++ optional_log env enabled folder title missing announce)
             (written st)).
Proof.
  intros Hno. unfold optional_stage, optional_tables, optional_log.
  destruct enabled eqn:He; simpl.
  - destruct (os_path_isdir env folder) eqn:Hd.
    + destruct (os_listdir env folder) as [e|names] eqn:Hl.
      * exfalso. apply (Hno e). now repeat split.
      * erewrite bind_ok by (apply csv_listing_ok; eassumption).
        unfold bind at 1, print at 1. simpl.
        rewrite for_each_load_spec. simpl.
        rewrite (csv_files_of_ok _ _ Hl).
        now rewrite <- app_assoc.
    + unfold print. now rewrite app_nil_r.
  - unfold ret. now rewrite !app_nil_r, state_eta.
Qed.

End Optional.

Lemma haralick_tables_optional cfg :
  optional_tables env (merge_haralick cfg) folder_haralick haralick_ident
  = if merge_haralick cfg then haralick_tables env else [].
Proof. unfold optional_tables, haralick_tables. now destruct (merge_haralick cfg). Qed.

Lemma haar_tables_optional cfg :
  optional_tables env (merge_haar cfg) folder_haarlike haar_ident
  = if merge_haar cfg then haar_tables env else [].
Proof. unfold optional_tables, haar_tables. now destruct (merge_haar cfg). Qed.

(** The last stage writes the file when [dfs] can be concatenated and the
    file can be written. *)
Lemma save_stage_ok cfg st m :
  concat_axis1 (pandas env) (dfs st) = inr m ->
  to_csv_error env (output_filename cfg) = None ->
  save_stage env cfg st
  = (Ok tt,
     mkState (dfs st)
             (stdout st ++ ["Saving Final Dataset..."; "CSV files merged successfully!"])
             (written st ++ [(output_filename cfg, to_csv m false)])).
Proof.
  intros H Hw. unfold save_stage, bind, print, get_dfs, lift, write_file, ret.
  simpl. rewrite H. simpl. rewrite Hw. simpl. now rewrite <- app_assoc.
Qed.

(** It raises when [pd.concat] raises. *)
Lemma save_stage_concat_raises cfg st e :
  concat_axis1 (pandas env) (dfs st) = inl e ->
  save_stage env cfg st
  = (Raise e,
     mkState (dfs st) (stdout st ++ ["Saving Final Dataset..."]) (written st)).
Proof.
  intros H. unfold save_stage, bind, print, get_dfs, lift.
  simpl. now rewrite H.
Qed.

(** And when [to_csv] raises. *)
Lemma save_stage_to_csv_raises cfg st m e :
  concat_axis1 (pandas env) (dfs st) = inr m ->
  to_csv_error env (output_filename cfg) = Some e ->
  save_stage env cfg st
  = (Raise e,
     mkState (dfs st) (stdout st ++ ["Saving Final Dataset..."]) (written st)).
Proof.
  intros H Hw. unfold save_stage, bind, print, get_dfs, lift, write_file, ret.
  simpl. rewrite H. simpl. now rewrite Hw.
Qed.

(** Up to the last stage: a run whose base directory gave a table and
    whose optional directories can be listed when they are to be listed
    reaches [pd.concat] with the tables of the enabled directories. *)
Lemma run_reaches_save cfg names :
  os_listdir env folder_path = inr names ->
  base_tables env <> [] ->
  (forall e, ~ listing_fails env (merge_haralick cfg) folder_haralick e) ->
  (forall e, ~ listing_fails env (merge_haar cfg) folder_haarlike e) ->
  run env cfg
  = save_stage env cfg
      (mkState (all_tables env cfg)
               (base_log env ++ haralick_log env cfg ++ haar_log env cfg) []).
Proof.
  intros Hbase Hne Hh Ha. unfold run, script.
  pose proof (base_stage_listed names initial Hbase) as Hb. simpl in Hb.
  destruct (base_tables env) as [|t ts] eqn:Ht; [congruence|].
  erewrite bind_ok by exact Hb. cbv beta.
  rewrite haralick_stage_shape, haar_stage_shape. rewrite <- Ht in *.
  erewrite bind_ok by (apply optional_stage_ok; assumption). cbv beta. simpl.
  rewrite haralick_tables_optional.
  erewrite bind_ok by (apply optional_stage_ok; assumption). cbv beta. simpl.
  rewrite haar_tables_optional.
  fold (haralick_log env cfg). fold (haar_log env cfg).
  unfold all_tables. now rewrite <- !app_assoc.
Qed.

(** Every run ends in one of the seven ways of [Outcome]. *)
Lemma run_outcome cfg : Outcome env cfg (run env cfg).
Proof.
  destruct (os_listdir env folder_path) as [e|names] eqn:Hbase.
  - unfold run, script.
    erewrite bind_raise by (apply base_stage_raise; eassumption).
    now constructor.
  - destruct (base_tables env) as [|t ts] eqn:Ht.
    + unfold run, script.
      pose proof (base_stage_listed names initial Hbase) as Hb. simpl in Hb.
      rewrite Ht in Hb.
      erewrite bind_exit by exact Hb. now apply nothing_loaded with names.
    + assert (Hne : base_tables env <> []) by (rewrite Ht; discriminate).
      clear Ht.
      destruct (listing_fails_dec (merge_haralick cfg) folder_haralick)
        as [[e He]|Hh].
      { unfold run, script.
        pose proof (base_stage_listed names initial Hbase) as Hb. simpl in Hb.
        destruct (base_tables env) as [|t' ts'] eqn:Ht; [congruence|].
        erewrite bind_ok by exact Hb. cbv beta.
        rewrite haralick_stage_shape, haar_stage_shape. rewrite <- Ht in *.
        erewrite bind_raise by (apply optional_stage_raise; eassumption).
        now apply haralick_unlistable with names. }
      destruct (listing_fails_dec (merge_haar cfg) folder_haarlike)
        as [[e He]|Ha].
      { unfold run, script.
        pose proof (base_stage_listed names initial Hbase) as Hb. simpl in Hb.
        destruct (base_tables env) as [|t' ts'] eqn:Ht; [congruence|].
        erewrite bind_ok by exact Hb. cbv beta.
        rewrite haralick_stage_shape, haar_stage_shape. rewrite <- Ht in *.
        erewrite bind_ok by (apply optional_stage_ok; assumption).
        cbv beta. simpl. rewrite haralick_tables_optional.
        erewrite bind_raise by (apply optional_stage_raise; eassumption).
        now apply haar_unlistable with names. }
      rewrite (run_reaches_save cfg names Hbase Hne Hh Ha).
      destruct (concat_axis1 (pandas env) (all_tables env cfg)) as [e|m] eqn:Hm.
      { erewrite save_stage_concat_raises by exact Hm. simpl.
        rewrite !app_assoc. rewrite <- !app_assoc.
        now apply concat_raises with names. }
      destruct (to_csv_error env (output_filename cfg)) as [e|] eqn:Hw.
      { erewrite save_stage_to_csv_raises by eassumption. simpl.
        rewrite !app_assoc. rewrite <- !app_assoc.
        now apply to_csv_raises with names m. }
      erewrite save_stage_ok by eassumption. simpl.
      rewrite <- !app_assoc.
      now apply merged with names.
Qed.

End StageLemmas.

(** ** Strings *)

Section StringFacts.

Local Open Scope string_scope.

Lemma str_app_nil_r s : s ++ "" = s.
Proof. induction s; simpl; congruence. Qed.

Lemma str_app_assoc s1 s2 s3 : (s1 ++ s2) ++ s3 = s1 ++ s2 ++ s3.
Proof. induction s1; simpl; congruence. Qed.

Lemma str_length_app s1 s2 :
  String.length (s1 ++ s2) = (String.length s1 + String.length s2)%nat.
Proof. induction s1; simpl; congruence. Qed.

Lemma prefix_nil s : String.prefix "" s = true.
Proof. now destruct s. Qed.

Lemma prefix_cons a p b s :
  String.prefix (String a p) (String b s) = Ascii.eqb a b && String.prefix p s.
Proof.
  simpl. destruct (ascii_dec a b) as [->|Hne].
  - now rewrite Ascii.eqb_refl.
  - apply Ascii.eqb_neq in Hne. now rewrite Hne.
Qed.

Lemma prefix_refl_app p s : String.prefix p (p ++ s) = true.
Proof.
  induction p as [|a p IH]; [apply prefix_nil|].
  cbn [append]. now rewrite prefix_cons, Ascii.eqb_refl.
Qed.

Lemma prefix_length p s :
  String.prefix p s = true -> (String.length p <= String.length s)%nat.
Proof.
  revert s. induction p as [|a p IH]; intros s H; simpl; [lia|].
  destruct s as [|b s]; [discriminate|].
  rewrite prefix_cons in H. apply andb_prop in H as [_ H].
  apply IH in H. simpl. lia.
Qed.

(** A prefix that fits in the first part of a concatenation ignores the
    second part. *)
Lemma prefix_app_fit p x y :
  (String.length p <= String.length x)%nat ->
  String.prefix p (x ++ y) = String.prefix p x.
Proof.
  revert x. induction p as [|a p IH]; intros x Hlen.
  - now rewrite !prefix_nil.
  - destruct x as [|b x]; simpl in Hlen; [lia|].
    cbn [append]. rewrite !prefix_cons. f_equal. apply IH. lia.
Qed.

Lemma prefix_app_mono p x y :
  String.prefix p x = true -> String.prefix p (x ++ y) = true.
Proof.
  intros H. rewrite prefix_app_fit; [assumption|]. now apply prefix_length.
Qed.

(** A prefix that runs over the seam of [x ++ String c rest] holds [c]. *)
Lemma prefix_over_seam c p x rest :
  String.prefix p (x ++ String c rest) = true ->
  (String.length x < String.length p)%nat ->
  PyStr.has_char c p = true.
Proof.
  revert x. induction p as [|a p IH]; intros x H Hlen; simpl in Hlen; [lia|].
  destruct x as [|b x]; cbn [append] in H; rewrite prefix_cons in H;
    apply andb_prop in H as [Hab H]; simpl.
  - rewrite Hab. reflexivity.
  - simpl in Hlen. rewrite (IH x H); [apply orb_true_r|lia].
Qed.

Lemma substring_0_app x y :
  String.substring 0 (String.length x) (x ++ y) = x.
Proof. induction x as [|a x IH]; simpl; [now destruct y|congruence]. Qed.

Lemma substring_all s n :
  (String.length s <= n)%nat -> String.substring 0 n s = s.
Proof.
  revert n. induction s as [|a s IH]; intros n H; simpl.
  - now destruct n.
  - destruct n; simpl in H; [lia|]. simpl. rewrite IH; [reflexivity|lia].
Qed.

Lemma substring_skip x y n :
  String.substring (String.length x) n (x ++ y) = String.substring 0 n y.
Proof. induction x as [|a x IH]; simpl; [reflexivity|assumption]. Qed.

End StringFacts.

(** ** str.replace

    Both patterns of the script, ["_haralick"] and ["_haar"], start with a
    character that does not come back later in the pattern.  Two occurrences
    of such a pattern cannot overlap, which makes [replace] compositional. *)

Section ReplaceFacts.

Local Open Scope string_scope.

Variables (c0 : ascii) (tl new : string).
Hypothesis first_char_once : PyStr.has_char c0 tl = false.

(** Jumping over [z] when [skip] is its length. *)
Lemma replace_from_skip z y :
  PyStr.replace_from (String c0 tl) new (String.length z) (z ++ y)
  = PyStr.replace_from (String c0 tl) new 0 y.
Proof. induction z as [|a z IH]; simpl; [now destruct y|assumption]. Qed.

(** A string without an occurrence of the pattern is left as it is. *)
Lemma replace_from_absent x :
  PyStr.contains x (String c0 tl) = false ->
  PyStr.replace_from (String c0 tl) new 0 x = x.
Proof.
  induction x as [|a x IH]; intros H; [reflexivity|].
  cbn [PyStr.contains] in H. apply orb_false_elim in H as [Hp Hx].
  cbn [PyStr.replace_from]. rewrite Hp. now rewrite IH.
Qed.

(** In front of an occurrence, the pattern matches at the head of a
    non-empty [x] exactly when it matches inside [x]. *)
Lemma prefix_before_occurrence b x y :
  String.prefix (String c0 tl) (String b x ++ String c0 tl ++ y)
  = String.prefix (String c0 tl) (String b x).
Proof.
  destruct (String.prefix (String c0 tl) (String b x)) eqn:Hp.
  - now apply prefix_app_mono.
  - destruct (String.prefix (String c0 tl) (String b x ++ String c0 tl ++ y))
      eqn:Hq; [|reflexivity].
    exfalso. cbn [append] in Hq.
    rewrite prefix_cons in Hp, Hq. apply andb_prop in Hq as [Hb Hq].
    rewrite Hb in Hp. simpl in Hp.
    destruct (Nat.le_gt_cases (String.length tl) (String.length x)) as [Hle|Hgt].
    + rewrite prefix_app_fit in Hq by assumption. congruence.
    + pose proof (prefix_over_seam c0 tl x (tl ++ y) Hq Hgt). congruence.
Qed.

(** The scan of [x ++ old ++ y] is the scan of [x], then [new], then the
    scan of [y]. *)
Lemma replace_from_occurrence x : forall k y,
  (k <= String.length x)%nat ->
  PyStr.replace_from (String c0 tl) new k (x ++ String c0 tl ++ y)
  = PyStr.replace_from (String c0 tl) new k x
      ++ new ++ PyStr.replace_from (String c0 tl) new 0 y.
Proof.
  induction x as [|b x IH]; intros k y Hk.
  - simpl in Hk. assert (k = 0)%nat as -> by lia.
    pose proof (prefix_refl_app (String c0 tl) y) as Hp.
    cbn [append] in *. cbn [PyStr.replace_from].
    rewrite Hp.
    replace (String.length (String c0 tl) - 1)%nat with (String.length tl)
      by (simpl; lia).
    now rewrite replace_from_skip.
  - destruct k as [|k].
    + change (String b x ++ String c0 tl ++ y)
        with (String b (x ++ String c0 tl ++ y)).
      cbn [PyStr.replace_from].
      change (String b (x ++ String c0 tl ++ y))
        with (String b x ++ String c0 tl ++ y).
      rewrite prefix_before_occurrence.
      destruct (String.prefix (String c0 tl) (String b x)) eqn:Hp.
      * rewrite IH.
        -- now rewrite str_app_assoc.
        -- apply prefix_length in Hp. simpl in Hp. simpl. lia.
      * rewrite IH by lia. reflexivity.
    + cbn [append PyStr.replace_from]. apply IH. simpl in Hk. lia.
Qed.

Lemma replace_occurrence x y :
  PyStr.replace (x ++ String c0 tl ++ y) (String c0 tl) new
  = PyStr.replace x (String c0 tl) new ++ new ++ PyStr.replace y (String c0 tl) new.
Proof. unfold PyStr.replace. apply replace_from_occurrence. lia. Qed.

Lemma replace_absent x :
  PyStr.contains x (String c0 tl) = false -> PyStr.replace x (String c0 tl) new = x.
Proof. unfold PyStr.replace. apply replace_from_absent. Qed.

End ReplaceFacts.

(** ** os.path.splitext and str.endswith *)

Section PathFacts.

Local Open Scope string_scope.

Lemma has_char_app c x y :
  PyStr.has_char c (x ++ y) = PyStr.has_char c x || PyStr.has_char c y.
Proof. induction x as [|a x IH]; simpl; [reflexivity|]. now rewrite IH, orb_assoc. Qed.

Lemma rfind_from_absent c s i acc :
  PyStr.has_char c s = false -> PyStr.rfind_from c s i acc = acc.
Proof.
  revert i acc. induction s as [|a s IH]; intros i acc H; simpl in *; [reflexivity|].
  apply orb_false_elim in H as [Ha Hs]. rewrite Ha. now apply IH.
Qed.

(** The last occurrence of [c] in [y ++ c :: t], when [t] has none. *)
Lemma rfind_from_last c y t i acc :
  PyStr.has_char c t = false ->
  PyStr.rfind_from c (y ++ String c t) i acc = (i + Z.of_nat (String.length y))%Z.
Proof.
  intros Ht. revert i acc. induction y as [|a y IH]; intros i acc; simpl.
  - rewrite Ascii.eqb_refl, rfind_from_absent by assumption. lia.
  - rewrite IH. lia.
Qed.

Lemma substring_0_0 s : String.substring 0 0 s = "".
Proof. now destruct s. Qed.

Lemma char_at_seam pre a rest :
  PyStr.char_at (pre ++ String a rest) (Z.of_nat (String.length pre)) = String a "".
Proof.
  unfold PyStr.char_at.
  destruct (Z.ltb_spec (Z.of_nat (String.length pre)) 0) as [H|_]; [lia|].
  rewrite Nat2Z.id, substring_skip. simpl. now rewrite substring_0_0.
Qed.

(** The loop of [splitext] over the characters of [y]. *)
Lemma non_dot_before_spec y : forall pre rest,
  OsPath.non_dot_before (pre ++ y ++ rest) (Z.of_nat (String.length pre))
                        (String.length y)
  = negb (OsPath.only_dots y).
Proof.
  induction y as [|a y IH]; intros pre rest; [reflexivity|].
  cbn [String.length OsPath.non_dot_before OsPath.only_dots append].
  rewrite char_at_seam. cbn [String.eqb].
  unfold OsPath.extsep_char.
  destruct (Ascii.eqb a ".") eqn:Ha; simpl; [|reflexivity].
  specialize (IH (pre ++ String a "") rest).
  rewrite str_app_assoc in IH. cbn [append] in IH.
  rewrite str_length_app in IH. simpl in IH.
  replace (Z.of_nat (String.length pre) + 1)%Z
    with (Z.of_nat (String.length pre + 1)) by lia.
  exact IH.
Qed.

(** For a file name [y.ext] without a directory part, with [y] not made of
    dots only and an extension without a dot, [splitext] splits at the
    extension. *)
Lemma splitext_extension y ext :
  PyStr.has_char "/" y = false ->
  PyStr.has_char "/" ext = false ->
  PyStr.has_char "." ext = false ->
  OsPath.only_dots y = false ->
  OsPath.splitext (y ++ String "." ext) = (y, String "." ext).
Proof.
  intros Hy Hext Hdot Hdots. unfold OsPath.splitext, PyStr.rfind.
  unfold OsPath.sep_char, OsPath.extsep_char.
  rewrite rfind_from_absent
    by (rewrite has_char_app; cbn [PyStr.has_char]; now rewrite Hy, Hext).
  rewrite rfind_from_last by assumption.
  replace (0 + Z.of_nat (String.length y))%Z with (Z.of_nat (String.length y)) by lia.
  destruct (Z.ltb_spec (-1) (Z.of_nat (String.length y))) as [_|H]; [|lia].
  replace (Z.to_nat (Z.of_nat (String.length y) - (-1 + 1)))
    with (String.length y) by lia.
  change (-1 + 1)%Z with (Z.of_nat (String.length "")).
  change (y ++ String "." ext) with ("" ++ y ++ String "." ext) at 1.
  rewrite non_dot_before_spec, Hdots. cbn [negb andb].
  unfold PyStr.slice_to, PyStr.slice_from.
  destruct (Z.ltb_spec (Z.of_nat (String.length y)) 0) as [H|_]; [lia|].
  rewrite Nat2Z.id, substring_0_app, substring_skip.
  rewrite substring_all; [reflexivity|].
  rewrite str_length_app. lia.
Qed.

Lemma splitext_csv y :
  PyStr.has_char "/" y = false ->
  OsPath.only_dots y = false ->
  OsPath.splitext (y ++ ".csv") = (y, ".csv").
Proof. intros Hy Hd. now apply (splitext_extension y "csv"). Qed.

Lemma substring_split s : forall k,
  (k <= String.length s)%nat ->
  s = String.substring 0 k s ++ String.substring k (String.length s - k) s.
Proof.
  induction s as [|a s IH]; intros k Hk.
  - simpl in Hk. now assert (k = 0)%nat as -> by lia.
  - destruct k as [|k].
    + simpl. now rewrite substring_all by lia.
    + simpl in Hk. cbn [String.substring String.length Nat.sub append].
      f_equal. apply IH. lia.
Qed.

(** [endswith] holds exactly of the strings that are something followed by
    the suffix. *)
Lemma endswith_iff s suf :
  PyStr.endswith s suf = true <-> exists y, s = y ++ suf.
Proof.
  unfold PyStr.endswith. split.
  - intros H. apply andb_prop in H as [Hlen Heq].
    apply Nat.leb_le in Hlen. apply String.eqb_eq in Heq.
    exists (String.substring 0 (String.length s - String.length suf) s).
    assert (Hk : (String.length s - String.length suf <= String.length s)%nat) by lia.
    pose proof (substring_split s _ Hk) as Hs.
    replace (String.length s - (String.length s - String.length suf))%nat
      with (String.length suf) in Hs by lia.
    now rewrite Heq in Hs.
  - intros [y ->]. rewrite str_length_app.
    replace (String.length y + String.length suf - String.length suf)%nat
      with (String.length y) by lia.
    rewrite substring_skip, substring_all by lia.
    rewrite String.eqb_refl, andb_true_r. apply Nat.leb_le. lia.
Qed.

End PathFacts.

(** ** sorted() *)

Section SortedFacts.

Lemma ascii_compare_refl a : Ascii.compare a a = Eq.
Proof. unfold Ascii.compare. apply N.compare_refl. Qed.

Lemma ascii_compare_lt_trans a b c :
  Ascii.compare a b = Lt -> Ascii.compare b c = Lt -> Ascii.compare a c = Lt.
Proof.
  unfold Ascii.compare. rewrite !N.compare_lt_iff. apply N.lt_trans.
Qed.

Lemma string_leb_trans s1 : forall s2 s3,
  String.leb s1 s2 = true -> String.leb s2 s3 = true -> String.leb s1 s3 = true.
Proof.
  unfold String.leb.
  induction s1 as [|a s1 IH]; intros [|b s2] [|c s3]; simpl; try easy.
  destruct (Ascii.compare a b) eqn:Hab; destruct (Ascii.compare b c) eqn:Hbc;
    try easy.
  - apply Ascii.compare_eq_iff in Hab, Hbc. subst.
    rewrite ascii_compare_refl. apply IH.
  - apply Ascii.compare_eq_iff in Hab. subst. now rewrite Hbc.
  - apply Ascii.compare_eq_iff in Hbc. subst. now rewrite Hab.
  - now rewrite (ascii_compare_lt_trans a b c).
Qed.

(** [sorted] returns its argument rearranged in ascending order. *)
Lemma sorted_ascending l :
  StronglySorted (fun a b => String.leb a b = true) (sorted l).
Proof.
  pose proof (StringSort.StronglySorted_sort l) as H.
  assert (Htrans : Transitive (fun x y => is_true (StringOrder.leb x y))).
  { intros x y z. unfold is_true, StringOrder.leb. apply string_leb_trans. }
  specialize (H Htrans).
  eapply StronglySorted_ind with (P := StronglySorted _); try exact H.
  - constructor.
  - intros a l' _ IH Hall. constructor; [exact IH|exact Hall].
Qed.

Lemma sorted_permutation l : Permutation l (sorted l).
Proof. apply StringSort.Permuted_sort. Qed.

Lemma in_csv_names names f :
  In f (csv_names names) <-> In f names /\ PyStr.endswith f ".csv" = true.
Proof.
  unfold csv_names.
  pose proof (filter_In (fun f => PyStr.endswith f ".csv") f names) as Hf.
  cbv beta in Hf. rewrite <- Hf. split; intros H.
  - eapply Permutation_in; [apply Permutation_sym, sorted_permutation|exact H].
  - eapply Permutation_in; [apply sorted_permutation|exact H].
Qed.

End SortedFacts.

(** ** pd.concat and to_csv *)

Section PandasFacts.

Variable pd : Internals.

Lemma label_eqb_eq a b : label_eqb a b = true <-> a = b.
Proof.
  destruct a as [i|s], b as [j|t]; simpl; split; intros H;
    try discriminate; try (injection H as ->).
  - apply Nat.eqb_eq in H. now subst.
  - apply Nat.eqb_refl.
  - apply String.eqb_eq in H. now subst.
  - apply String.eqb_refl.
Qed.

Lemma index_eqb_eq a : forall b, index_eqb a b = true <-> a = b.
Proof.
  induction a as [|x a IH]; intros [|y b]; simpl; split; intros H;
    try discriminate; try reflexivity.
  - apply andb_prop in H as [Hx Ha].
    apply label_eqb_eq in Hx. apply IH in Ha. now subst.
  - injection H as -> ->. apply andb_true_intro. split.
    + now apply label_eqb_eq.
    + now apply IH.
Qed.

Lemma index_eqb_refl a : index_eqb a a = true.
Proof. now apply index_eqb_eq. Qed.

Lemma position_in l idx p : position l idx = Some p -> In l idx.
Proof.
  revert p. induction idx as [|x idx IH]; intros p; simpl; [discriminate|].
  destruct (label_eqb l x) eqn:E.
  - intros _. left. symmetry. now apply label_eqb_eq.
  - destruct (position l idx) as [q|]; [|discriminate].
    intros _. right. now apply (IH q).
Qed.

(** Where a position is in a run of consecutive positions. *)
Lemma position_seq i k : forall s,
  position (Row i) (map Row (seq s k))
  = if ((s <=? i) && (i <? s + k))%nat then Some (i - s) else None.
Proof.
  induction k as [|k IH]; intros s; simpl.
  - destruct (s <=? i)%nat eqn:E1; [|reflexivity].
    destruct (Nat.ltb_spec i (s + 0)); [|reflexivity].
    apply Nat.leb_le in E1. lia.
  - destruct (Nat.eqb_spec i s) as [->|Hne].
    + rewrite Nat.leb_refl. simpl.
      destruct (Nat.ltb_spec s (s + S k)); [|lia].
      now rewrite Nat.sub_diag.
    + rewrite IH.
      destruct (Nat.leb_spec (S s) i), (Nat.leb_spec s i),
               (Nat.ltb_spec i (S s + k)), (Nat.ltb_spec i (s + S k));
        simpl; try lia; try reflexivity.
      f_equal. lia.
Qed.

Lemma position_range i k :
  position (Row i) (range_index k) = if (i <? k)%nat then Some i else None.
Proof.
  unfold range_index. rewrite position_seq. simpl. now rewrite Nat.sub_0_r.
Qed.

Lemma range_index_length n : List.length (range_index n) = n.
Proof. unfold range_index. now rewrite length_map, length_seq. Qed.

Lemma in_range_index l n : In l (range_index n) <-> exists i, l = Row i /\ i < n.
Proof.
  unfold range_index. rewrite in_map_iff. split.
  - intros (i & <- & Hi). apply in_seq in Hi. exists i. split; [reflexivity|lia].
  - intros (i & -> & Hi). exists i. split; [reflexivity|]. apply in_seq. lia.
Qed.

Lemma reindex_length old new v : List.length (reindex pd old new v) = List.length new.
Proof. unfold reindex. apply length_map. Qed.

Lemma aligned_length old new v :
  List.length v = List.length old ->
  List.length (aligned pd old new v) = List.length new.
Proof.
  intros H. unfold aligned. destruct (index_eqb old new) eqn:E.
  - apply index_eqb_eq in E. now subst.
  - apply reindex_length.
Qed.

(** What [pd.concat] returns, when it returns. *)
Lemma concat_axis1_inv l m :
  concat_axis1 pd l = inr m ->
  (exists d rest, l = d :: rest /\ concat_index pd d rest = inr (index m))
  /\ series m
     = flat_map
         (fun df =>
            map (fun c => (fst c, aligned pd (index df) (index m) (snd c)))
                (series df)) l.
Proof.
  destruct l as [|d rest]; [discriminate|]. simpl.
  destruct (concat_index pd d rest) as [e|new] eqn:Hi; [discriminate|].
  intros H. injection H as <-. simpl. split; [|reflexivity].
  now exists d, rest.
Qed.

Lemma flat_map_series_columns (f : DataFrame -> list cell -> list cell) l :
  map fst (flat_map (fun df => map (fun c => (fst c, f df (snd c))) (series df)) l)
  = flat_map columns l.
Proof.
  induction l as [|d l IH]; simpl; [reflexivity|].
  rewrite map_app, IH. f_equal. unfold columns. rewrite map_map. reflexivity.
Qed.

(** The columns of the result are the columns of the inputs, in order. *)
Lemma concat_axis1_columns l m :
  concat_axis1 pd l = inr m -> columns m = flat_map columns l.
Proof.
  intros H. apply concat_axis1_inv in H as (_ & Hs).
  unfold columns at 1. rewrite Hs.
  apply (flat_map_series_columns (fun df => aligned pd (index df) (index m))).
Qed.

Lemma length_flat_map_columns l :
  List.length (flat_map columns l) = list_sum (map width l).
Proof.
  induction l as [|d l IH]; simpl; [reflexivity|].
  rewrite length_app, IH. unfold columns, width. now rewrite length_map.
Qed.

Lemma concat_axis1_width l m :
  concat_axis1 pd l = inr m -> width m = list_sum (map width l).
Proof.
  intros H. rewrite <- length_flat_map_columns, <- (concat_axis1_columns l m H).
  unfold width, columns. now rewrite length_map.
Qed.

(** Well-formed inputs give a well-formed result. *)
Lemma concat_axis1_well_formed l m :
  concat_axis1 pd l = inr m -> Forall well_formed l -> well_formed m.
Proof.
  intros H Hwf. apply concat_axis1_inv in H as (_ & Hs).
  unfold well_formed. rewrite Hs. apply Forall_flat_map.
  rewrite Forall_forall in *. intros df Hdf.
  apply Forall_map, Forall_forall. intros c Hc. simpl.
  apply aligned_length. specialize (Hwf df Hdf). unfold well_formed in Hwf.
  rewrite Forall_forall in Hwf. now apply Hwf.
Qed.

Lemma forallb_index_eqb d rest :
  forallb (fun df => index_eqb (index df) (index d)) rest = true
  <-> Forall (fun df => index df = index d) rest.
Proof.
  rewrite forallb_forall, Forall_forall. split; intros H df Hdf.
  - now apply index_eqb_eq, H.
  - now apply index_eqb_eq, H.
Qed.

Lemma flat_map_agree {A B} (f g : A -> list B) (l : list A) :
  (forall a, In a l -> f a = g a) -> flat_map f l = flat_map g l.
Proof.
  induction l as [|a l IH]; intros H; simpl; [reflexivity|].
  rewrite (H a (or_introl eq_refl)), IH; [reflexivity|].
  intros b Hb. apply H. now right.
Qed.

(** Tables that share their row index keep it, and their values. *)
Lemma concat_axis1_same_index l m idx :
  concat_axis1 pd l = inr m ->
  Forall (fun df => index df = idx) l ->
  index m = idx /\ series m = flat_map series l.
Proof.
  intros H Hall.
  destruct (concat_axis1_inv l m H) as ((d & rest & -> & Hi) & Hs).
  inversion Hall as [|? ? Hd Hrest]; subst.
  unfold concat_index in Hi.
  assert (Hb : forallb (fun df => index_eqb (index df) (index d)) rest = true).
  { apply forallb_index_eqb. eapply Forall_impl; [|exact Hrest].
    simpl. intros df ->. reflexivity. }
  rewrite Hb in Hi. injection Hi as Hi. split; [now symmetry|].
  rewrite Hs. apply flat_map_agree. intros df Hdf.
  rewrite Forall_forall in Hall. rewrite (Hall df Hdf), <- Hi.
  unfold aligned. rewrite index_eqb_refl.
  rewrite <- (map_id (series df)) at 2. apply map_ext. now intros [name v].
Qed.

Lemma list_max_all_equal h l :
  l <> [] -> Forall (fun n => n = h) l -> list_max l = h.
Proof.
  intros Hne Hall. apply Nat.le_antisymm.
  - apply list_max_le. eapply Forall_impl; [|exact Hall].
    simpl. intros n ->. apply Nat.le_refl.
  - destruct l as [|n l]; [congruence|].
    inversion Hall; subst. simpl. apply Nat.le_max_l.
Qed.

(** Tables with the default index: [pd.concat] does not raise, and the
    result has the default index of the tallest. *)
Lemma concat_axis1_default_index l :
  l <> [] ->
  Forall (fun df => default_index df = true) l ->
  exists m,
    concat_axis1 pd l = inr m
    /\ index m = range_index (list_max (map nrows l)).
Proof.
  intros Hne Hall. destruct l as [|d rest]; [congruence|].
  unfold concat_axis1, concat_index.
  assert (Hdef : forallb default_index (d :: rest) = true)
    by (apply forallb_forall; now apply Forall_forall).
  destruct (forallb (fun df => index_eqb (index df) (index d)) rest) eqn:Hb.
  - eexists. split; [reflexivity|]. simpl index.
    apply forallb_index_eqb in Hb.
    rewrite (list_max_all_equal (nrows d)).
    + inversion Hall as [|? ? Hd _]; subst.
      now apply index_eqb_eq in Hd.
    + discriminate.
    + simpl. constructor; [reflexivity|].
      apply Forall_map. eapply Forall_impl; [|exact Hb].
      simpl. intros df E. unfold nrows. now rewrite E.
  - rewrite Hdef. eexists. split; reflexivity.
Qed.

(** Every row label of an input is a row label of the result. *)
Lemma concat_axis1_keeps_labels l m df x :
  concat_axis1 pd l = inr m -> In df l -> In x (index df) -> In x (index m).
Proof.
  intros H Hdf Hx.
  destruct (concat_axis1_inv l m H) as ((d & rest & -> & Hi) & _).
  unfold concat_index in Hi.
  destruct (forallb (fun t => index_eqb (index t) (index d)) rest) eqn:Hb.
  - injection Hi as <-. apply forallb_index_eqb in Hb.
    destruct Hdf as [<-|Hdf]; [assumption|].
    rewrite Forall_forall in Hb. now rewrite <- (Hb df Hdf).
  - destruct (forallb default_index (d :: rest)) eqn:Hdef.
    + injection Hi as <-.
      rewrite forallb_forall in Hdef. specialize (Hdef df Hdf).
      apply index_eqb_eq in Hdef. rewrite Hdef in Hx.
      apply in_range_index in Hx as (i & -> & Hi).
      apply in_range_index. exists i. split; [reflexivity|].
      pose proof (list_max_le (map nrows (d :: rest))
                    (list_max (map nrows (d :: rest)))) as [Hall _].
      specialize (Hall (Nat.le_refl _)). rewrite Forall_forall in Hall.
      specialize (Hall (nrows df) (in_map nrows _ _ Hdf)).
      eapply Nat.lt_le_trans; [exact Hi|exact Hall].
    + apply (combined_index_covers pd _ _ Hi (index df) x); [|assumption].
      now apply (in_map index).
Qed.

(** A table with a row gives a result with a row. *)
Lemma concat_axis1_has_row l m df :
  concat_axis1 pd l = inr m -> In df l -> 1 <= nrows df -> 1 <= nrows m.
Proof.
  intros H Hdf Hn. unfold nrows in *.
  destruct (index df) as [|x idx] eqn:E; [simpl in Hn; lia|].
  assert (Hx : In x (index m)).
  { apply (concat_axis1_keeps_labels l m df x H Hdf). rewrite E. now left. }
  destruct (index m); [contradiction|]. simpl. lia.
Qed.

(** In a result with the default index, a column of a table with the
    default index has a missing value in every row the table lacks, and is
    left as it was when the table lacks none. *)
Lemma nth_range_index i n : i < n -> nth i (range_index n) (Row 0) = Row i.
Proof.
  intros H. unfold range_index.
  rewrite (map_nth Row (seq 0 n) 0 i). now rewrite seq_nth.
Qed.

Lemma aligned_default k n v i :
  List.length v = k ->
  k <= i ->
  nth i (aligned pd (range_index k) (range_index n) v) None = None.
Proof.
  intros Hv Hi. unfold aligned.
  destruct (index_eqb (range_index k) (range_index n));
    [apply nth_overflow; lia|].
  unfold reindex.
  set (F := fun l => match position l (range_index k) with
                     | Some p =>
                         nth p (if forallb (has_label (range_index k))
                                           (range_index n)
                                then v else upcast pd v) None
                     | None => None
                     end).
  destruct (Nat.lt_ge_cases i n) as [Hlt|Hge].
  - rewrite (nth_indep (map F (range_index n)) None (F (Row 0)))
      by (rewrite length_map, range_index_length; exact Hlt).
    rewrite map_nth, nth_range_index by exact Hlt.
    unfold F. rewrite position_range.
    destruct (Nat.ltb_spec i k); [lia|reflexivity].
  - apply nth_overflow. rewrite length_map, range_index_length. exact Hge.
Qed.

Lemma aligned_same_index idx v : aligned pd idx idx v = v.
Proof. unfold aligned. now rewrite index_eqb_refl. Qed.

(** The file has one header line and one line per row; without the index,
    the header is the list of columns and every line has one field per
    column. *)
Lemma to_csv_no_index m :
  exists rows,
    to_csv m false = columns m :: rows
    /\ List.length rows = nrows m
    /\ Forall (fun line => List.length line = width m) (columns m :: rows).
Proof.
  exists (map (csv_row m false) (seq 0 (nrows m))). repeat split.
  - now rewrite length_map, length_seq.
  - constructor.
    + unfold columns, width. now rewrite length_map.
    + apply Forall_map, Forall_forall. intros i _. unfold csv_row, width.
      simpl. now rewrite length_map.
Qed.

(** With the index, every line has one more field. *)
Lemma to_csv_with_index m :
  Forall (fun line => List.length line = S (width m)) (to_csv m true).
Proof.
  unfold to_csv. constructor.
  - simpl. unfold columns, width. now rewrite length_map.
  - apply Forall_map, Forall_forall. intros i _. unfold csv_row, width.
    simpl. now rewrite length_map.
Qed.

End PandasFacts.

(** * The properties of the specification *)

Section RunFacts.

Variables (env : Env) (cfg : Config).

(** What a run that reaches its last statement has done. *)
Lemma run_ok_inv st :
  run env cfg = (Ok tt, st) ->
  exists names m,
    os_listdir env folder_path = inr names
    /\ base_tables env <> []
    /\ concat_axis1 (pandas env) (all_tables env cfg) = inr m
    /\ dfs st = all_tables env cfg
    /\ written st = [(output_filename cfg, to_csv m false)].
Proof.
  intros Hrun. pose proof (run_outcome env cfg) as H. rewrite Hrun in H.
  inversion H; subst. exists names, m. simpl. auto.
Qed.

(** A run that does not reach its last statement writes nothing. *)
Lemma run_failed_writes_nothing :
  fst (run env cfg) <> Ok tt -> written (snd (run env cfg)) = [].
Proof.
  intros Hne. pose proof (run_outcome env cfg) as H.
  destruct H; simpl in *; try reflexivity. congruence.
Qed.

Lemma run_exit_iff :
  fst (run env cfg) = SysExit 1
  <-> (exists names, os_listdir env folder_path = inr names)
      /\ base_tables env = [].
Proof.
  pose proof (run_outcome env cfg) as H. split.
  - intros Hexit. destruct H; simpl in Hexit; try discriminate. eauto.
  - intros [[names Hn] Hb].
    destruct H; simpl; try reflexivity; congruence.
Qed.

End RunFacts.

(** Claim C1, as the specification states it, fails: with no CSV file in
    the base directory and a good file in the Haralick directory, the run
    exits with status 1 and writes nothing, although the tables of the
    enabled directories are not all missing. *)
Lemma exit_despite_haralick_table :
  (exit_status (run Fixtures.only_haralick source_config) = 1%Z
   /\ written (snd (run Fixtures.only_haralick source_config)) = [])
  /\ all_tables Fixtures.only_haralick source_config <> []
  /\ ~ ((exit_status (run Fixtures.only_haralick source_config) <> 0%Z
         /\ written (snd (run Fixtures.only_haralick source_config)) = [])
        <-> all_tables Fixtures.only_haralick source_config = []).
Proof.
  split; [split; reflexivity|]. split; [vm_compute; discriminate|].
  intros [Hfail _].
  assert (H : all_tables Fixtures.only_haralick source_config = []).
  { apply Hfail. split; [vm_compute; discriminate|reflexivity]. }
  vm_compute in H. discriminate.
Qed.

(** Claim C1, amended: the run takes the [exit(1)] path, with the
    diagnostic as its last line and no file written, exactly when the base
    directory can be listed and has contributed no table ([base_tables] is
    the value of [dfs] after the base stage); the check comes before the
    optional directories are looked at.  A base directory
    without CSV files takes this path, a base directory that contributed a
    table does not, and no run that ends otherwise than by its last
    statement writes a file. *)
Theorem exit_iff_base_contributes_nothing (env : Env) (cfg : Config) :
  (fst (run env cfg) = SysExit 1
   <-> (exists names, os_listdir env folder_path = inr names)
       /\ base_tables env = [])
  /\ (fst (run env cfg) = SysExit 1 ->
      exit_status (run env cfg) = 1%Z
      /\ written (snd (run env cfg)) = []
      /\ last (stdout (snd (run env cfg))) EmptyString = msg_no_valid)
  /\ (forall names, os_listdir env folder_path = inr names ->
      csv_names names = [] -> fst (run env cfg) = SysExit 1)
  /\ (base_tables env <> [] -> fst (run env cfg) <> SysExit 1)
  /\ (exit_status (run env cfg) <> 0%Z -> written (snd (run env cfg)) = [])
  /\ (forall names, os_listdir env folder_path = inr names ->
      dfs (snd (base_stage env initial)) = base_tables env).
Proof.
  split; [apply run_exit_iff|]. split; [|split; [|split; [|split]]];
    [| | | |intros names Hn; now rewrite (base_stage_listed env names initial Hn)].
  - intros Hexit. pose proof (run_outcome env cfg) as H.
    destruct H; simpl in Hexit; try discriminate.
    unfold exit_status. simpl. repeat split.
    unfold base_log. rewrite H0. rewrite app_assoc. apply last_last.
  - intros names Hn Hc. apply run_exit_iff. split; [eauto|].
    unfold base_tables. now rewrite (csv_files_of_ok _ _ _ Hn), Hc.
  - intros Hb Hexit. apply run_exit_iff in Hexit as [_ He]. contradiction.
  - intros Hne. apply run_failed_writes_nothing. intros Hok.
    apply Hne. unfold exit_status. now rewrite Hok.
Qed.

Lemma exit_iff_base_contributes_nothing_witness :
  fst (run Fixtures.only_haralick source_config) = SysExit 1
  /\ written (snd (run Fixtures.only_haralick source_config)) = [].
Proof.
  pose proof (exit_iff_base_contributes_nothing Fixtures.only_haralick source_config)
    as (Hiff & Hexit & _).
  assert (H : fst (run Fixtures.only_haralick source_config) = SysExit 1).
  { apply Hiff. split; [eexists; reflexivity|reflexivity]. }
  split; [exact H|]. now apply Hexit.
Defined.

(** Claim C2, as the specification states it, fails on the height: with
    the switches of the source and two base tables with the default index,
    a first one of one row and a second of two rows, the loaded tables have
    heights 1 and 2 and the file written has two data lines, more than the
    first and shortest table has rows; the column of the first table has a
    missing value in the second line, and its integer is written as a
    float. *)
Lemma merged_taller_than_first_table :
  fst (run Fixtures.uneven source_config) = Ok tt
  /\ map nrows (dfs (snd (run Fixtures.uneven source_config))) = [1; 2]
  /\ written (snd (run Fixtures.uneven source_config))
     = [("2kyr_new_AllColumns_onlyHaralick.csv",
         [["a_x"; "b_y"]; ["1.0"; "2"]; [""; "2"]])].
Proof. repeat split. Qed.

(** Claim C2, amended: in every run that writes its output, the merged
    table has as many columns as the loaded tables have together.  Its rows
    are those of the row index on which [pd.concat] aligns the tables, by
    label and not by position: every row label of a loaded table is a row
    label of the result, and tables that share one index give a result with
    that index and their values untouched.  When the loaded tables all have
    the default index, the result has the height of the tallest of them
    (the common height when they are equally tall), and a table has a
    missing value in every row it lacks; [pd.concat] does not raise on
    default indexes of different lengths.  Well-formed tables give a
    well-formed result. *)
Theorem merged_width_and_height (env : Env) (cfg : Config) (st : State) :
  run env cfg = (Ok tt, st) ->
  exists m,
    concat_axis1 (pandas env) (all_tables env cfg) = inr m
    /\ dfs st = all_tables env cfg
    /\ written st = [(output_filename cfg, to_csv m false)]
    /\ width m = list_sum (map width (all_tables env cfg))
    /\ series m
       = flat_map
           (fun df =>
              map (fun c => (fst c, aligned (pandas env) (index df) (index m) (snd c)))
                  (series df))
           (all_tables env cfg)
    /\ (forall df x,
        In df (all_tables env cfg) -> In x (index df) -> In x (index m))
    /\ (forall idx,
        Forall (fun df => index df = idx) (all_tables env cfg) ->
        index m = idx /\ series m = flat_map series (all_tables env cfg))
    /\ (Forall (fun df => default_index df = true) (all_tables env cfg) ->
        nrows m = list_max (map nrows (all_tables env cfg))
        /\ index m = range_index (nrows m)
        /\ (forall h, Forall (fun df => nrows df = h) (all_tables env cfg) ->
            nrows m = h)
        /\ (forall df c i,
            In df (all_tables env cfg) -> In c (series df) ->
            List.length (snd c) = nrows df -> nrows df <= i ->
            nth i (aligned (pandas env) (index df) (index m) (snd c)) None
            = None))
    /\ (Forall well_formed (all_tables env cfg) -> well_formed m)
    /\ (forall l, l <> [] -> Forall (fun df => default_index df = true) l ->
        exists m', concat_axis1 (pandas env) l = inr m').
Proof.
  intros Hrun.
  destruct (run_ok_inv env cfg st Hrun) as (names & m & _ & Hb & Hm & Hd & Hw).
  assert (Hne : all_tables env cfg <> []).
  { unfold all_tables. intros E. apply app_eq_nil in E as [E _]. now apply Hb. }
  exists m. split; [exact Hm|]. split; [exact Hd|]. split; [exact Hw|].
  split; [exact (concat_axis1_width (pandas env) _ _ Hm)|].
  split; [exact (proj2 (concat_axis1_inv (pandas env) _ _ Hm))|].
  split; [intros df x; exact (concat_axis1_keeps_labels (pandas env) _ _ df x Hm)|].
  split; [intros idx; exact (concat_axis1_same_index (pandas env) _ _ idx Hm)|].
  split; [|split].
  - intros Hdef.
    destruct (concat_axis1_default_index (pandas env) _ Hne Hdef) as (m' & Hm' & Hi).
    rewrite Hm in Hm'. injection Hm' as <-.
    assert (Hn : nrows m = list_max (map nrows (all_tables env cfg))).
    { unfold nrows at 1. rewrite Hi. apply range_index_length. }
    split; [exact Hn|]. split; [now rewrite Hn|]. split.
    + intros h Hall. rewrite Hn. apply list_max_all_equal.
      * destruct (all_tables env cfg); [congruence|discriminate].
      * now apply Forall_map.
    + intros df c i Hdf Hc Hlen Hi'.
      rewrite Forall_forall in Hdef. specialize (Hdef df Hdf).
      apply index_eqb_eq in Hdef. rewrite Hdef, Hi.
      now apply aligned_default.
  - exact (concat_axis1_well_formed (pandas env) _ _ Hm).
  - intros l Hl Hdef.
    destruct (concat_axis1_default_index (pandas env) l Hl Hdef) as (m' & Hm' & _).
    now exists m'.
Qed.

Lemma merged_width_and_height_witness :
  exists m,
    concat_axis1 (pandas Fixtures.uneven)
                 (all_tables Fixtures.uneven Fixtures.plain) = inr m
    /\ width m = 2 /\ nrows m = 2.
Proof.
  destruct (merged_width_and_height Fixtures.uneven Fixtures.plain
              (snd (run Fixtures.uneven Fixtures.plain)) eq_refl)
    as (m & Hm & _ & _ & Hw & _ & _ & _ & Hdef & _).
  exists m. split; [exact Hm|]. split; [exact Hw|].
  assert (Hall : Forall (fun df => default_index df = true)
                        (all_tables Fixtures.uneven Fixtures.plain)).
  { repeat (constructor; [reflexivity|]). constructor. }
  exact (proj1 (Hdef Hall)).
Defined.

(** ** The identifier of the auxiliary files *)

Section Identifiers.

Local Open Scope string_scope.

Lemma loop_body_shape env k :
  loop_body env k = load_file env (loop_announce k) (loop_ident k) (loop_folder k).
Proof. now destruct k. Qed.

Lemma loop_ident_replace k suf file :
  stripped_suffix k = Some suf ->
  loop_ident k file = PyStr.replace (fst (OsPath.splitext file)) suf "".
Proof. destruct k; intros [= <-]; reflexivity. Qed.

(** Both suffixes start with an underscore that does not come back. *)
Lemma stripped_suffix_shape k suf :
  stripped_suffix k = Some suf ->
  exists tl, suf = String "_" tl /\ PyStr.has_char "_" tl = false.
Proof. destruct k; intros [= <-]; eexists; split; reflexivity. Qed.

Lemma replace_empty_string suf : PyStr.replace "" suf "" = "".
Proof. now destruct suf. Qed.

Lemma loop_ident_occurrence k suf file x y :
  stripped_suffix k = Some suf ->
  fst (OsPath.splitext file) = x ++ suf ++ y ->
  loop_ident k file = PyStr.replace x suf "" ++ PyStr.replace y suf "".
Proof.
  intros Hk Hstem. rewrite (loop_ident_replace k suf file Hk), Hstem.
  destruct (stripped_suffix_shape k suf Hk) as (tl & -> & Htl).
  now rewrite replace_occurrence.
Qed.

Lemma replace_unchanged k suf x :
  stripped_suffix k = Some suf ->
  PyStr.contains x suf = false -> PyStr.replace x suf "" = x.
Proof.
  intros Hk Hx. destruct (stripped_suffix_shape k suf Hk) as (tl & -> & Htl).
  now apply replace_absent.
Qed.

Lemma columns_prefixed name df :
  columns (prefixed name df) = map (fun col => name ++ "_" ++ col) (columns df).
Proof. unfold columns, prefixed. simpl. now rewrite !map_map. Qed.

Lemma empty_false_columns df : empty df = false -> columns df <> [].
Proof.
  unfold empty, width, columns. intros H E.
  apply orb_false_elim in H as [_ H]. apply Nat.eqb_neq in H.
  apply H. apply (f_equal (@List.length string)) in E.
  now rewrite length_map in E.
Qed.

End Identifiers.

(** Claim C3, the code at an input where it departs from the claim: the
    stem of the Haralick file [a_haralick_b_haralick.csv] ends with
    [_haralick], and the loop names its column [h] as [a_b_h], whereas the
    stem with its suffix stripped gives [a_haralick_b_h]; likewise
    [x_y_w] instead of [x_haar_y_w] for the Haar file
    [x_haar_y_haar.csv]. *)
Lemma interior_suffix_also_stripped :
  (fst (OsPath.splitext "a_haralick_b_haralick.csv")
   = ("a_haralick_b" ++ "_haralick")%string
   /\ map columns (contribution Fixtures.doubled haralick_ident folder_haralick
                     "a_haralick_b_haralick.csv") = [["a_b_h"]])
  /\ (fst (OsPath.splitext "x_haar_y_haar.csv") = ("x_haar_y" ++ "_haar")%string
      /\ map columns (contribution Fixtures.doubled haar_ident folder_haarlike
                        "x_haar_y_haar.csv") = [["x_y_w"]]).
Proof. repeat split. Qed.

(** Where claim C3 does hold: for a Haralick (Haar) file that parses to a
    table that is not empty and whose stem is [x] followed by [_haralick]
    ([_haar]), where [x] itself holds no occurrence of that suffix, the loop
    appends one table whose columns are [x], an underscore and the original
    name: the suffix is stripped, the full stem is not the prefix. *)
Theorem suffix_stripped_from_column_prefix
    (env : Env) (k : loop) (suf file x : string) (df : DataFrame) (st : State) :
  stripped_suffix k = Some suf ->
  fst (OsPath.splitext file) = (x ++ suf)%string ->
  PyStr.contains x suf = false ->
  pd_read_csv env (OsPath.join (loop_folder k) file) = inr df ->
  empty df = false ->
  loop_body env k file st
  = (Ok tt,
     mkState (dfs st ++ [prefixed x df])
             (stdout st ++ loop_announce k file (OsPath.join (loop_folder k) file))
             (written st))
  /\ columns (prefixed x df)
     = map (fun col => x ++ "_" ++ col)%string (columns df)
  /\ columns (prefixed x df)
     <> map (fun col => (x ++ suf) ++ "_" ++ col)%string (columns df).
Proof.
  intros Hk Hstem Hx Hread Hempty.
  assert (Hid : loop_ident k file = x).
  { rewrite <- (str_app_nil_r suf) in Hstem.
    rewrite (loop_ident_occurrence k suf file x "" Hk Hstem).
    rewrite (replace_unchanged k suf x Hk Hx), replace_empty_string.
    apply str_app_nil_r. }
  split; [|split].
  - rewrite loop_body_shape, load_file_spec.
    unfold contribution, file_log, verdict. rewrite Hread, Hempty, Hid.
    now rewrite app_nil_r.
  - apply columns_prefixed.
  - rewrite columns_prefixed. intros E.
    destruct (columns df) as [|col cols] eqn:Hc.
    + now apply (empty_false_columns df Hempty).
    + simpl in E. injection E as E _.
      apply (f_equal String.length) in E.
      rewrite !str_length_app in E.
      destruct (stripped_suffix_shape k suf Hk) as (tl & -> & _).
      simpl in E. lia.
Qed.

Lemma suffix_stripped_from_column_prefix_witness :
  (dfs (snd (load_haralick Fixtures.scenario "sample1_haralick.csv" initial))
   = [prefixed "sample1" (Fixtures.table ["h"] 2 "9")]
   /\ columns (prefixed "sample1" (Fixtures.table ["h"] 2 "9")) = ["sample1_h"])
  /\ (dfs (snd (load_haar Fixtures.scenario "sample1_haar.csv" initial))
      = [prefixed "sample1" (Fixtures.table ["w"] 2 "5")]
      /\ columns (prefixed "sample1" (Fixtures.table ["w"] 2 "5")) = ["sample1_w"]).
Proof.
  split.
  - destruct (suffix_stripped_from_column_prefix Fixtures.scenario HaralickLoop
                "_haralick" "sample1_haralick.csv" "sample1"
                (Fixtures.table ["h"] 2 "9") initial
                eq_refl eq_refl eq_refl eq_refl eq_refl) as (Hrun & Hcols & _).
    split; [|exact Hcols].
    change (load_haralick Fixtures.scenario)
      with (loop_body Fixtures.scenario HaralickLoop).
    now rewrite Hrun.
  - destruct (suffix_stripped_from_column_prefix Fixtures.scenario HaarLoop
                "_haar" "sample1_haar.csv" "sample1"
                (Fixtures.table ["w"] 2 "5") initial
                eq_refl eq_refl eq_refl eq_refl eq_refl) as (Hrun & Hcols & _).
    split; [|exact Hcols].
    change (load_haar Fixtures.scenario)
      with (loop_body Fixtures.scenario HaarLoop).
    now rewrite Hrun.
Defined.

(** Claim C10: the identifier of a Haralick (Haar) file is the stem with
    every occurrence of [_haralick] ([_haar]) removed by [str.replace], not
    only a trailing one: an occurrence anywhere in the stem disappears and
    what stands before and after it is treated the same way, while a part
    without occurrence is kept as it is.  The Haralick file
    [a_haralick_b_haralick.csv] gets [a_b], and a Haar file loses an
    occurrence in the middle of its stem. *)
Theorem every_occurrence_removed (k : loop) (suf file x y : string) :
  stripped_suffix k = Some suf ->
  fst (OsPath.splitext file) = (x ++ suf ++ y)%string ->
  loop_ident k file = PyStr.replace (fst (OsPath.splitext file)) suf ""
  /\ loop_ident k file
     = (PyStr.replace x suf "" ++ PyStr.replace y suf "")%string
  /\ (PyStr.contains x suf = false -> PyStr.contains y suf = false ->
      loop_ident k file = (x ++ y)%string)
  /\ haralick_ident "a_haralick_b_haralick.csv" = "a_b"
  /\ haar_ident "p_haar_q.csv" = "p_q"
  /\ haar_ident "x_haar_y_haar.csv" = "x_y".
Proof.
  intros Hk Hstem. split; [now apply loop_ident_replace|].
  split; [now apply loop_ident_occurrence|].
  split; [|repeat split].
  intros Hx Hy. rewrite (loop_ident_occurrence k suf file x y Hk Hstem).
  now rewrite (replace_unchanged k suf x Hk Hx), (replace_unchanged k suf y Hk Hy).
Qed.

Lemma every_occurrence_removed_witness :
  loop_ident HaarLoop "p_haar_q.csv" = "p_q".
Proof.
  destruct (every_occurrence_removed HaarLoop "_haar" "p_haar_q.csv" "p" "_q"
              eq_refl eq_refl) as (_ & _ & H & _).
  apply H; reflexivity.
Defined.

(** Claim C4: a run that writes a file writes one file, named after the
    base directory without its trailing separator, then the suffix the two
    switches select, then [.csv]; its content is the merged table written
    without a column of row labels: the header is the list of the columns
    and every line has one field per column. *)
Theorem output_name_and_no_index
    (env : Env) (cfg : Config) (name : string) (content : list (list string)) :
  In (name, content) (written (snd (run env cfg))) ->
  written (snd (run env cfg)) = [(name, content)]
  /\ folder_path = ("2kyr_new" ++ OsPath.sep)%string
  /\ name = ("2kyr_new" ++ suffix cfg ++ ".csv")%string
  /\ suffix cfg
     = (match merge_haralick cfg, merge_haar cfg with
        | true, true => "_AllColumns_imgfeatures"
        | true, false => "_AllColumns_onlyHaralick"
        | false, true => "_AllColumns_onlyHaar"
        | false, false => "_AllColumns"
        end)
  /\ exists m rows,
       concat_axis1 (pandas env) (all_tables env cfg) = inr m
       /\ content = to_csv m false
       /\ content = columns m :: rows
       /\ List.length rows = nrows m
       /\ Forall (fun line => List.length line = width m) content.
Proof.
  intros Hin.
  assert (Hok : fst (run env cfg) = Ok tt).
  { destruct (fst (run env cfg)) as [[]| |] eqn:E; [reflexivity| |];
      rewrite run_failed_writes_nothing in Hin by (rewrite E; discriminate);
      contradiction. }
  destruct (run env cfg) as [r st] eqn:Hrun. simpl in *. subst r.
  destruct (run_ok_inv env cfg st Hrun) as (names & m & _ & _ & Hm & _ & Hw).
  rewrite Hw in Hin. destruct Hin as [[= <- <-]|[]].
  split; [exact Hw|]. split; [reflexivity|]. split; [reflexivity|].
  split; [unfold suffix; now destruct (merge_haralick cfg), (merge_haar cfg)|].
  destruct (to_csv_no_index m) as (rows & Hc & Hlen & Hall).
  exists m, rows. rewrite Hc. repeat split; assumption.
Qed.

Lemma output_name_and_no_index_witness :
  written (snd (run Fixtures.scenario source_config))
  = [("2kyr_new_AllColumns_onlyHaralick.csv",
      [["img1_a"; "img1_b"; "img2_a"; "img2_c"; "sample1_h"];
       ["1"; "1"; "2"; "2"; "9"];
       ["1"; "1"; "2"; "2"; "9"]])].
Proof.
  refine (proj1 (output_name_and_no_index Fixtures.scenario source_config
                   "2kyr_new_AllColumns_onlyHaralick.csv" _ _)).
  left. reflexivity.
Defined.

(** Claim C5: a CSV file of the base directory that parses to a table that
    is not empty contributes one table, whose column names are the stem of
    the file ([os.path.splitext], nothing stripped), an underscore and the
    original name; these are the names under which its columns reach the
    merged table.  The file name is some [y] followed by [.csv], and the
    stem is [y] when [y] has no directory part and is not made of dots
    only. *)
Theorem base_columns_prefixed_with_stem
    (env : Env) (cfg : Config) (names : list string) (file : string)
    (df : DataFrame) :
  os_listdir env folder_path = inr names ->
  In file names ->
  PyStr.endswith file ".csv" = true ->
  pd_read_csv env (OsPath.join folder_path file) = inr df ->
  empty df = false ->
  base_ident file = fst (OsPath.splitext file)
  /\ (exists y, file = (y ++ ".csv")%string
                /\ (PyStr.has_char "/" y = false ->
                    OsPath.only_dots y = false -> base_ident file = y))
  /\ (forall st,
      load_base env file st
      = (Ok tt,
         mkState (dfs st ++ [prefixed (base_ident file) df])
                 (stdout st ++ [("Merging: " ++ OsPath.join folder_path file)%string])
                 (written st)))
  /\ In (prefixed (base_ident file) df) (base_tables env)
  /\ columns (prefixed (base_ident file) df)
     = map (fun col => base_ident file ++ "_" ++ col)%string (columns df)
  /\ (forall st, run env cfg = (Ok tt, st) ->
      exists m,
        written st = [(output_filename cfg, to_csv m false)]
        /\ incl (map (fun col => base_ident file ++ "_" ++ col)%string (columns df))
                (columns m)).
Proof.
  intros Hlist Hin Hcsv Hread Hempty.
  assert (Hc : contribution env base_ident folder_path file
               = [prefixed (base_ident file) df]).
  { unfold contribution. now rewrite Hread, Hempty. }
  assert (Hbase : In (prefixed (base_ident file) df) (base_tables env)).
  { unfold base_tables. rewrite (csv_files_of_ok _ _ _ Hlist).
    apply in_flat_map. exists file. split.
    - now apply in_csv_names.
    - rewrite Hc. now left. }
  split; [reflexivity|]. split; [|split; [|split; [|split]]].
  - apply endswith_iff in Hcsv as [y ->]. exists y. split; [reflexivity|].
    intros Hy Hd. unfold base_ident. now rewrite splitext_csv.
  - intros st. unfold load_base. rewrite load_file_spec, Hc.
    unfold file_log, verdict. rewrite Hread, Hempty. now rewrite app_nil_r.
  - exact Hbase.
  - apply columns_prefixed.
  - intros st Hrun.
    destruct (run_ok_inv env cfg st Hrun) as (? & m & _ & _ & Hm & _ & Hw).
    exists m. split; [exact Hw|].
    rewrite (concat_axis1_columns _ _ _ Hm), <- columns_prefixed.
    intros c Hcol. apply in_flat_map.
    exists (prefixed (base_ident file) df). split; [|exact Hcol].
    unfold all_tables. apply in_or_app. now left.
Qed.

Lemma base_columns_prefixed_with_stem_witness :
  columns (prefixed (base_ident "img2.csv") (Fixtures.table ["a"; "c"] 2 "2"))
  = ["img2_a"; "img2_c"]
  /\ In (prefixed (base_ident "img2.csv") (Fixtures.table ["a"; "c"] 2 "2"))
        (base_tables Fixtures.scenario).
Proof.
  destruct (base_columns_prefixed_with_stem Fixtures.scenario Fixtures.plain
              ["img2.csv"; "notes.txt"; "img1.csv"] "img2.csv"
              (Fixtures.table ["a"; "c"] 2 "2")
              eq_refl (or_introl eq_refl) eq_refl eq_refl eq_refl)
    as (_ & _ & _ & Hin & Hcols & _).
  split; [exact Hcols|exact Hin].
Defined.

(** Claim C6: listing a directory yields exactly its names that end in
    [.csv], in ascending lexicographic order; and a run that reaches the
    concatenation has loaded the tables of the base files in that order,
    then those of the Haralick files in that order when the switch is on
    (and the directory exists), then those of the Haar files likewise, and
    the columns of the merged table are the columns of these tables in that
    very order. *)
Theorem discovery_and_concatenation_order (env : Env) (cfg : Config) :
  (forall folder names st,
      os_listdir env folder = inr names ->
      csv_listing env folder st = (Ok (csv_names names), st)
      /\ csv_files_of env folder = csv_names names
      /\ StronglySorted (fun a b => String.leb a b = true) (csv_names names)
      /\ Permutation (filter (fun f => PyStr.endswith f ".csv") names)
                     (csv_names names)
      /\ (forall f, In f (csv_names names)
                    <-> In f names /\ PyStr.endswith f ".csv" = true))
  /\ (forall st,
      run env cfg = (Ok tt, st) ->
      let loaded :=
        flat_map (contribution env base_ident folder_path)
                 (csv_files_of env folder_path)
        ++ (if merge_haralick cfg && os_path_isdir env folder_haralick
            then flat_map (contribution env haralick_ident folder_haralick)
                          (csv_files_of env folder_haralick)
            else [])
        ++ (if merge_haar cfg && os_path_isdir env folder_haarlike
            then flat_map (contribution env haar_ident folder_haarlike)
                          (csv_files_of env folder_haarlike)
            else [])
      in
      dfs st = loaded
      /\ exists m,
           concat_axis1 (pandas env) loaded = inr m
           /\ written st = [(output_filename cfg, to_csv m false)]
           /\ columns m = flat_map columns loaded).
Proof.
  split.
  - intros folder names st Hl. split; [now apply csv_listing_ok|].
    split; [now apply csv_files_of_ok|].
    split; [apply sorted_ascending|].
    split; [apply sorted_permutation|apply in_csv_names].
  - intros st Hrun loaded.
    destruct (run_ok_inv env cfg st Hrun) as (? & m & _ & _ & Hm & Hd & Hw).
    assert (Hall : all_tables env cfg = loaded).
    { unfold all_tables, loaded, base_tables.
      rewrite <- haralick_tables_optional, <- haar_tables_optional.
      reflexivity. }
    rewrite Hall in *. split; [exact Hd|].
    exists m. repeat split; try assumption.
    exact (concat_axis1_columns (pandas env) _ _ Hm).
Qed.

Lemma discovery_and_concatenation_order_witness :
  csv_files_of Fixtures.scenario folder_path = ["img1.csv"; "img2.csv"]
  /\ map columns (dfs (snd (run Fixtures.scenario Fixtures.both)))
     = [["img1_a"; "img1_b"]; ["img2_a"; "img2_c"]; ["sample1_h"]; ["sample1_w"]].
Proof.
  destruct (discovery_and_concatenation_order Fixtures.scenario Fixtures.both)
    as [Hlist Hrun].
  split.
  - destruct (Hlist folder_path ["img2.csv"; "notes.txt"; "img1.csv"] initial eq_refl)
      as (_ & H & _).
    exact H.
  - destruct (Hrun (snd (run Fixtures.scenario Fixtures.both)) eq_refl) as [H _].
    rewrite H. reflexivity.
Defined.

(** ** Files and directories that are skipped *)

Section Skipping.

Variable env : Env.

(** A file that contributes nothing leaves [dfs] as it is and does not stop
    the loop: the files after it are loaded as if it were not there. *)
Lemma loop_skips_file k file before after st :
  contribution env (loop_ident k) (loop_folder k) file = [] ->
  fst (for_each (before ++ file :: after) (loop_body env k) st) = Ok tt
  /\ dfs (snd (for_each (before ++ file :: after) (loop_body env k) st))
     = dfs st
         ++ flat_map (contribution env (loop_ident k) (loop_folder k)) before
         ++ flat_map (contribution env (loop_ident k) (loop_folder k)) after
  /\ dfs (snd (for_each (before ++ file :: after) (loop_body env k) st))
     = dfs (snd (for_each (before ++ after) (loop_body env k) st))
  /\ incl (verdict env (loop_folder k) file)
          (stdout (snd (for_each (before ++ file :: after) (loop_body env k) st))).
Proof.
  intros Hc. rewrite loop_body_shape, !for_each_load_spec. simpl.
  rewrite !flat_map_app. simpl. rewrite Hc. simpl.
  repeat split.
  intros line Hline. apply in_or_app. right. apply in_or_app. right.
  apply in_or_app. left. unfold file_log. apply in_or_app. now right.
Qed.

(** A run whose base directory gave a table and whose optional directories
    can be listed when they are to be listed goes on to the last stage: it
    prints that it saves the dataset, with the tables of the enabled
    directories in [dfs], and reaches the last statement when [pd.concat]
    and [to_csv] do not raise. *)
Lemma run_past_listings cfg names :
  os_listdir env folder_path = inr names ->
  base_tables env <> [] ->
  (forall e, ~ listing_fails env (merge_haralick cfg) folder_haralick e) ->
  (forall e, ~ listing_fails env (merge_haar cfg) folder_haarlike e) ->
  dfs (snd (run env cfg)) = all_tables env cfg
  /\ (exists more,
        stdout (snd (run env cfg))
        = base_log env ++ haralick_log env cfg ++ haar_log env cfg
            ++ "Saving Final Dataset..." :: more)
  /\ (forall m,
      concat_axis1 (pandas env) (all_tables env cfg) = inr m ->
      to_csv_error env (output_filename cfg) = None ->
      fst (run env cfg) = Ok tt
      /\ written (snd (run env cfg)) = [(output_filename cfg, to_csv m false)]).
Proof.
  intros Hn Hb Hh Ha. pose proof (run_outcome env cfg) as H.
  destruct H; simpl; try congruence.
  - exfalso. eapply Hh; eassumption.
  - exfalso. eapply Ha; eassumption.
  - split; [reflexivity|]. split; [exists []; reflexivity|]. congruence.
  - split; [reflexivity|]. split; [exists []; reflexivity|]. congruence.
  - split; [reflexivity|]. split; [eexists; reflexivity|].
    intros m' Hm' _. split; [reflexivity|]. congruence.
Qed.

Lemma missing_directory_never_fails enabled folder :
  os_path_isdir env folder = false ->
  forall e, ~ listing_fails env enabled folder e.
Proof. intros Hd e (_ & H & _). congruence. Qed.

End Skipping.

(** Claim C7: when [pd.read_csv] raises on a file, in any of the three
    loops, the exception is caught: the turn of the loop returns, prints
    [Error reading file], the file name and the message, and leaves [dfs]
    untouched; the loop goes on, and loads the other files as if the failing
    one were not there. *)
Theorem parse_failure_skips_file (env : Env) (k : loop) (file e : string) :
  pd_read_csv env (OsPath.join (loop_folder k) file) = inl e ->
  (forall st,
      loop_body env k file st
      = (Ok tt,
         mkState (dfs st)
                 (stdout st
                    ++ loop_announce k file (OsPath.join (loop_folder k) file)
                    ++ [("Error reading file " ++ file ++ ": " ++ e)%string])
                 (written st)))
  /\ (forall before after st,
      let final := for_each (before ++ file :: after) (loop_body env k) st in
      fst final = Ok tt
      /\ dfs (snd final)
         = dfs st
             ++ flat_map (contribution env (loop_ident k) (loop_folder k)) before
             ++ flat_map (contribution env (loop_ident k) (loop_folder k)) after
      /\ dfs (snd final)
         = dfs (snd (for_each (before ++ after) (loop_body env k) st))
      /\ In ("Error reading file " ++ file ++ ": " ++ e)%string (stdout (snd final))).
Proof.
  intros Hread.
  assert (Hc : contribution env (loop_ident k) (loop_folder k) file = []).
  { unfold contribution. now rewrite Hread. }
  assert (Hv : verdict env (loop_folder k) file
               = [("Error reading file " ++ file ++ ": " ++ e)%string]).
  { unfold verdict. now rewrite Hread. }
  split.
  - intros st. rewrite loop_body_shape, load_file_spec, Hc.
    unfold file_log. now rewrite Hv, app_nil_r.
  - intros before after st final.
    destruct (loop_skips_file env k file before after st Hc) as (H1 & H2 & H3 & H4).
    repeat split; try assumption.
    apply H4. rewrite Hv. now left.
Qed.

Lemma parse_failure_skips_file_witness :
  fst (run Fixtures.damaged Fixtures.plain) = Ok tt
  /\ load_base Fixtures.damaged "broken.csv" initial
     = (Ok tt,
        mkState []
          ["Merging: 2kyr_new/broken.csv";
           "Error reading file broken.csv: Error tokenizing data"]
          []).
Proof.
  split; [reflexivity|].
  exact (proj1 (parse_failure_skips_file Fixtures.damaged BaseLoop "broken.csv"
                  "Error tokenizing data" eq_refl)
               initial).
Defined.

(** Claim C8: a file with a header and no data row, in any of the three
    directories, is reported as empty and skipped: the turn of the loop
    returns with [dfs] untouched, so the file gives no column to the merged
    table, and the loop goes on with the files after it. *)
Theorem header_only_file_skipped
    (env : Env) (k : loop) (file : string) (df : DataFrame) :
  pd_read_csv env (OsPath.join (loop_folder k) file) = inr df ->
  nrows df = 0 ->
  empty df = true
  /\ contribution env (loop_ident k) (loop_folder k) file = []
  /\ (forall st,
      loop_body env k file st
      = (Ok tt,
         mkState (dfs st)
                 (stdout st
                    ++ loop_announce k file (OsPath.join (loop_folder k) file)
                    ++ [("The file " ++ file ++ " is empty. Skipping.")%string])
                 (written st)))
  /\ (forall before after st,
      let final := for_each (before ++ file :: after) (loop_body env k) st in
      fst final = Ok tt
      /\ dfs (snd final)
         = dfs st
             ++ flat_map (contribution env (loop_ident k) (loop_folder k)) before
             ++ flat_map (contribution env (loop_ident k) (loop_folder k)) after
      /\ dfs (snd final)
         = dfs (snd (for_each (before ++ after) (loop_body env k) st))).
Proof.
  intros Hread Hrows.
  assert (He : empty df = true) by (unfold empty; now rewrite Hrows).
  assert (Hc : contribution env (loop_ident k) (loop_folder k) file = []).
  { unfold contribution. now rewrite Hread, He. }
  split; [exact He|]. split; [exact Hc|]. split.
  - intros st. rewrite loop_body_shape, load_file_spec, Hc.
    unfold file_log, verdict. now rewrite Hread, He, app_nil_r.
  - intros before after st final.
    destruct (loop_skips_file env k file before after st Hc) as (H1 & H2 & H3 & _).
    repeat split; assumption.
Qed.

Lemma header_only_file_skipped_witness :
  map columns (dfs (snd (run Fixtures.damaged Fixtures.plain)))
  = [["img1_a"; "img1_b"]]
  /\ load_base Fixtures.damaged "empty.csv" initial
     = (Ok tt,
        mkState []
          ["Merging: 2kyr_new/empty.csv"; "The file empty.csv is empty. Skipping."]
          []).
Proof.
  split; [reflexivity|].
  destruct (header_only_file_skipped Fixtures.damaged BaseLoop "empty.csv"
              (Fixtures.table ["a"; "b"] 0 "") eq_refl eq_refl)
    as (_ & _ & H & _).
  exact (H initial).
Defined.

(** Claim C9: a Haralick or Haar directory that does not exist while its
    switch is on is tolerated: the stage prints that no directory was found,
    adds nothing to [dfs] and returns, and the run goes on: through the
    other optional stage to the last stage, where it prints that it saves
    the dataset, and to its last statement when neither [pd.concat] nor
    [to_csv] raises.  The base directory is not guarded: when listing it
    raises, the run ends there with the uncaught error, having printed and
    written nothing. *)
Theorem missing_directories (env : Env) (cfg : Config) :
  (merge_haralick cfg = true ->
   os_path_isdir env folder_haralick = false ->
   forall st,
     haralick_stage env cfg st
     = (Ok tt, mkState (dfs st) (stdout st ++ [haralick_missing]) (written st)))
  /\ (merge_haar cfg = true ->
      os_path_isdir env folder_haarlike = false ->
      forall st,
        haar_stage env cfg st
        = (Ok tt, mkState (dfs st) (stdout st ++ [haar_missing]) (written st)))
  /\ (forall names,
      os_listdir env folder_path = inr names ->
      base_tables env <> [] ->
      merge_haralick cfg = true ->
      os_path_isdir env folder_haralick = false ->
      (forall e, ~ listing_fails env (merge_haar cfg) folder_haarlike e) ->
      In haralick_missing (stdout (snd (run env cfg)))
      /\ In "Saving Final Dataset..." (stdout (snd (run env cfg)))
      /\ dfs (snd (run env cfg))
         = base_tables env ++ (if merge_haar cfg then haar_tables env else [])
      /\ (forall m,
          concat_axis1 (pandas env) (all_tables env cfg) = inr m ->
          to_csv_error env (output_filename cfg) = None ->
          fst (run env cfg) = Ok tt))
  /\ (forall names,
      os_listdir env folder_path = inr names ->
      base_tables env <> [] ->
      merge_haar cfg = true ->
      os_path_isdir env folder_haarlike = false ->
      (forall e, ~ listing_fails env (merge_haralick cfg) folder_haralick e) ->
      In haar_missing (stdout (snd (run env cfg)))
      /\ In "Saving Final Dataset..." (stdout (snd (run env cfg)))
      /\ dfs (snd (run env cfg))
         = base_tables env
             ++ (if merge_haralick cfg then haralick_tables env else [])
      /\ (forall m,
          concat_axis1 (pandas env) (all_tables env cfg) = inr m ->
          to_csv_error env (output_filename cfg) = None ->
          fst (run env cfg) = Ok tt))
  /\ (forall e,
      os_listdir env folder_path = inl e ->
      run env cfg = (Raise e, initial)
      /\ exit_status (run env cfg) = 1%Z
      /\ written (snd (run env cfg)) = []).
Proof.
  split; [|split; [|split; [|split]]].
  - intros Hm Hd st. unfold haralick_stage. now rewrite Hm, Hd.
  - intros Hm Hd st. unfold haar_stage. now rewrite Hm, Hd.
  - intros names Hn Hb Hm Hd Ha.
    destruct (run_past_listings env cfg names Hn Hb
                (missing_directory_never_fails env _ _ Hd) Ha)
      as (Hdfs & (more & Hout) & Hok).
    split; [|split; [|split]].
    + rewrite Hout. apply in_or_app. right. apply in_or_app. left.
      unfold haralick_log, optional_log. rewrite Hm, Hd. now left.
    + rewrite Hout. do 3 (apply in_or_app; right). now left.
    + rewrite Hdfs. unfold all_tables, haralick_tables. rewrite Hm, Hd.
      reflexivity.
    + intros m Hcat Hw. now apply (Hok m).
  - intros names Hn Hb Hm Hd Hh.
    destruct (run_past_listings env cfg names Hn Hb Hh
                (missing_directory_never_fails env _ _ Hd))
      as (Hdfs & (more & Hout) & Hok).
    split; [|split; [|split]].
    + rewrite Hout. apply in_or_app. right. apply in_or_app. right.
      apply in_or_app. left.
      unfold haar_log, optional_log. rewrite Hm, Hd. now left.
    + rewrite Hout. do 3 (apply in_or_app; right). now left.
    + rewrite Hdfs. unfold all_tables, haar_tables. rewrite Hm, Hd.
      now rewrite app_nil_r.
    + intros m Hcat Hw. now apply (Hok m).
  - intros e He. pose proof (run_outcome env cfg) as H.
    destruct H; try congruence.
    assert (e0 = e) as -> by congruence. repeat split.
Qed.

Lemma missing_directories_witness :
  (fst (run Fixtures.damaged Fixtures.both) = Ok tt
   /\ In haralick_missing (stdout (snd (run Fixtures.damaged Fixtures.both)))
   /\ In haar_missing (stdout (snd (run Fixtures.damaged Fixtures.both))))
  /\ run Fixtures.nowhere Fixtures.both
     = (Raise "[Errno 2] No such file or directory: '2kyr_new/'", initial).
Proof.
  destruct (missing_directories Fixtures.damaged Fixtures.both)
    as (_ & _ & Hh & Ha & _).
  destruct (missing_directories Fixtures.nowhere Fixtures.both)
    as (_ & _ & _ & _ & Hbase).
  assert (Hne : base_tables Fixtures.damaged <> []) by discriminate.
  destruct (Hh ["broken.csv"; "empty.csv"; "img1.csv"] eq_refl Hne eq_refl eq_refl
              (missing_directory_never_fails Fixtures.damaged true
                 folder_haarlike eq_refl))
    as (H1 & _ & _ & Hok).
  destruct (Ha ["broken.csv"; "empty.csv"; "img1.csv"] eq_refl Hne eq_refl eq_refl
              (missing_directory_never_fails Fixtures.damaged true
                 folder_haralick eq_refl))
    as (H2 & _).
  split.
  - split; [|split; assumption].
    eapply Hok; reflexivity.
  - apply (Hbase "[Errno 2] No such file or directory: '2kyr_new/'" eq_refl).
Defined.

(** * Further properties of the script *)

(** ** os.path.splitext *)

Section SplitextFacts.

Local Open Scope string_scope.

(** [rfind] either finds nothing or finds the last occurrence. *)
Lemma rfind_from_split c s : forall i acc,
  (PyStr.rfind_from c s i acc = acc /\ PyStr.has_char c s = false)
  \/ (exists x t,
        s = x ++ String c t
        /\ PyStr.rfind_from c s i acc = (i + Z.of_nat (String.length x))%Z
        /\ PyStr.has_char c t = false).
Proof.
  induction s as [|a s IH]; intros i acc; [now left|].
  cbn [PyStr.rfind_from PyStr.has_char].
  destruct (IH (i + 1)%Z (if Ascii.eqb a c then i else acc))
    as [[Hr Hs]|(x & t & Hx & Hr & Ht)].
  - destruct (Ascii.eqb_spec a c) as [->|Hne].
    + right. exists "", s. simpl.
      split; [reflexivity|split; [rewrite Hr; lia|assumption]].
    + left. now rewrite Hs.
  - right. exists (String a x), t. subst s. repeat split; [|assumption].
    rewrite Hr. simpl String.length. lia.
Qed.

Lemma rfind_split s c :
  (PyStr.rfind s c = (-1)%Z /\ PyStr.has_char c s = false)
  \/ (exists x t,
        s = x ++ String c t
        /\ PyStr.rfind s c = Z.of_nat (String.length x)
        /\ PyStr.has_char c t = false).
Proof.
  unfold PyStr.rfind.
  destruct (rfind_from_split c s 0 (-1)) as [H|(x & t & Hs & Hr & Ht)];
    [now left|right].
  exists x, t. repeat split; assumption.
Qed.

(** Two ways of cutting one string: the shorter head is a head of the
    longer one. *)
Lemma app_eq_app_le x : forall x' a b,
  x ++ a = x' ++ b ->
  (String.length x <= String.length x')%nat ->
  exists z, x' = x ++ z /\ a = z ++ b.
Proof.
  induction x as [|c x IH]; intros x' a b E Hlen.
  - exists x'. now split.
  - destruct x' as [|c' x']; simpl in Hlen; [lia|].
    simpl in E. injection E as -> E.
    destruct (IH x' a b E) as (z & -> & ->); [lia|].
    now exists z.
Qed.

Lemma slice_at_seam x y :
  PyStr.slice_to (x ++ y) (Z.of_nat (String.length x)) = x
  /\ PyStr.slice_from (x ++ y) (Z.of_nat (String.length x)) = y.
Proof.
  unfold PyStr.slice_to, PyStr.slice_from.
  destruct (Z.ltb_spec (Z.of_nat (String.length x)) 0) as [H|_]; [lia|].
  rewrite Nat2Z.id, substring_0_app, substring_skip. split; [reflexivity|].
  apply substring_all. rewrite str_length_app. lia.
Qed.

(** [splitext] cuts its argument in two: the parts put together give the
    argument back, and the extension is empty or is a dot followed by
    characters that are neither a dot nor a separator. *)
Theorem splitext_cuts (p : string) :
  fst (OsPath.splitext p) ++ snd (OsPath.splitext p) = p
  /\ (snd (OsPath.splitext p) = ""
      \/ exists e, snd (OsPath.splitext p) = String "." e
                   /\ PyStr.has_char "." e = false
                   /\ PyStr.has_char "/" e = false).
Proof.
  unfold OsPath.splitext.
  destruct ((PyStr.rfind p OsPath.sep_char <? PyStr.rfind p OsPath.extsep_char)%Z
            && OsPath.non_dot_before p (PyStr.rfind p OsPath.sep_char + 1)
                 (Z.to_nat (PyStr.rfind p OsPath.extsep_char
                            - (PyStr.rfind p OsPath.sep_char + 1)))) eqn:Hc;
    cbn [fst snd]; [|split; [apply str_app_nil_r|now left]].
  apply andb_prop in Hc as [Hlt _]. apply Z.ltb_lt in Hlt.
  unfold OsPath.sep_char, OsPath.extsep_char in *.
  destruct (rfind_split p ".") as [[Hd _]|(x & t & Hp & Hd & Ht)].
  - exfalso. destruct (rfind_split p "/") as [[Hs _]|(x' & t' & _ & Hs & _)]; lia.
  - rewrite Hd in *. subst p.
    destruct (slice_at_seam x (String "." t)) as [-> ->].
    split; [reflexivity|]. right. exists t.
    split; [reflexivity|]. split; [assumption|].
    destruct (rfind_split (x ++ String "." t) "/")
      as [[_ Hs]|(x' & t' & Hp' & Hs & Ht')].
    + rewrite has_char_app in Hs. apply orb_false_elim in Hs as [_ Hs].
      simpl in Hs. exact Hs.
    + rewrite Hs in Hlt. symmetry in Hp'.
      destruct (app_eq_app_le x' x (String "/" t') (String "." t) Hp')
        as (z & Hx & Hz); [lia|].
      destruct z as [|c z].
      * rewrite str_app_nil_r in Hx. subst x. lia.
      * simpl in Hz. injection Hz as _ Hz. rewrite Hz, has_char_app in Ht'.
        apply orb_false_elim in Ht' as [_ Ht']. simpl in Ht'. exact Ht'.
Qed.

End SplitextFacts.

(** ** The identifiers of the three groups *)

Section IdentifierFacts.

Local Open Scope string_scope.

Lemma only_dots_app x y :
  OsPath.only_dots (x ++ y) = OsPath.only_dots x && OsPath.only_dots y.
Proof.
  induction x as [|a x IH]; simpl; [reflexivity|].
  now rewrite IH, andb_assoc.
Qed.

(** The stem of [y ++ suf ++ ".csv"] for one of the two suffixes. *)
Lemma splitext_auxiliary k suf y :
  stripped_suffix k = Some suf ->
  PyStr.has_char "/" y = false ->
  OsPath.splitext (y ++ suf ++ ".csv") = (y ++ suf, ".csv").
Proof.
  intros Hk Hy. rewrite <- str_app_assoc. apply splitext_csv.
  - rewrite has_char_app, Hy.
    destruct k; try discriminate; injection Hk as <-; reflexivity.
  - rewrite only_dots_app.
    destruct k; try discriminate; injection Hk as <-; apply andb_false_r.
Qed.

(** Replacing by the empty string never makes a string longer. *)
Lemma replace_from_length old s : forall k,
  (String.length (PyStr.replace_from old "" k s) <= String.length s)%nat.
Proof.
  induction s as [|a s IH]; intros k; [simpl; lia|].
  cbn [PyStr.replace_from]. destruct k as [|k].
  - destruct (String.prefix old (String a s)).
    + cbn [append]. specialize (IH (String.length old - 1)%nat). simpl. lia.
    + specialize (IH 0%nat). simpl. lia.
  - specialize (IH k). simpl. lia.
Qed.

(** And makes it shorter when the pattern occurs. *)
Lemma replace_from_shorter a old s :
  PyStr.contains s (String a old) = true ->
  (String.length (PyStr.replace_from (String a old) "" 0 s) < String.length s)%nat.
Proof.
  induction s as [|b s IH]; intros H; [discriminate|].
  cbn [PyStr.contains] in H. cbn [PyStr.replace_from].
  destruct (String.prefix (String a old) (String b s)) eqn:Hp.
  - cbn [append].
    pose proof (replace_from_length (String a old) s
                  (String.length (String a old) - 1)).
    simpl String.length in *. lia.
  - simpl in H. apply IH in H. simpl. lia.
Qed.

End IdentifierFacts.

(** The three identifiers agree on the files of one sample: for a sample
    name [y] without directory part, not made of dots only and free of the
    two suffixes, the base file [y.csv], the Haralick file [y_haralick.csv]
    and the Haar file [y_haar.csv] all get the identifier [y]. *)
Theorem identifiers_agree (y : string) :
  PyStr.has_char "/" y = false ->
  OsPath.only_dots y = false ->
  PyStr.contains y "_haralick" = false ->
  PyStr.contains y "_haar" = false ->
  base_ident (y ++ ".csv") = y
  /\ haralick_ident (y ++ "_haralick.csv") = y
  /\ haar_ident (y ++ "_haar.csv") = y.
Proof.
  intros Hy Hd Hh Ha. split; [|split].
  - unfold base_ident. now rewrite splitext_csv.
  - assert (Hstem : fst (OsPath.splitext (y ++ "_haralick.csv"))
                    = (y ++ "_haralick" ++ "")%string).
    { change (y ++ "_haralick.csv")%string
        with (y ++ "_haralick" ++ ".csv")%string.
      now rewrite (splitext_auxiliary HaralickLoop "_haralick" y eq_refl Hy). }
    change (haralick_ident (y ++ "_haralick.csv"))
      with (loop_ident HaralickLoop (y ++ "_haralick.csv")).
    rewrite (loop_ident_occurrence HaralickLoop _ _ y "" eq_refl Hstem).
    rewrite (replace_unchanged HaralickLoop _ y eq_refl Hh).
    apply str_app_nil_r.
  - assert (Hstem : fst (OsPath.splitext (y ++ "_haar.csv"))
                    = (y ++ "_haar" ++ "")%string).
    { change (y ++ "_haar.csv")%string with (y ++ "_haar" ++ ".csv")%string.
      now rewrite (splitext_auxiliary HaarLoop "_haar" y eq_refl Hy). }
    change (haar_ident (y ++ "_haar.csv"))
      with (loop_ident HaarLoop (y ++ "_haar.csv")).
    rewrite (loop_ident_occurrence HaarLoop _ _ y "" eq_refl Hstem).
    rewrite (replace_unchanged HaarLoop _ y eq_refl Ha).
    apply str_app_nil_r.
Qed.

Lemma identifiers_agree_witness :
  base_ident "sample1.csv" = "sample1"
  /\ haralick_ident "sample1_haralick.csv" = "sample1"
  /\ haar_ident "sample1_haar.csv" = "sample1".
Proof.
  exact (identifiers_agree "sample1" eq_refl eq_refl eq_refl eq_refl).
Defined.

(** The identifier of an auxiliary file is never longer than its stem, and
    it is the stem itself exactly when the suffix does not occur in the
    stem: a Haralick file named without [_haralick] keeps its whole stem as
    prefix. *)
Theorem identifier_is_stem_iff_suffix_absent (k : loop) (suf file : string) :
  stripped_suffix k = Some suf ->
  (String.length (loop_ident k file)
   <= String.length (fst (OsPath.splitext file)))%nat
  /\ (loop_ident k file = fst (OsPath.splitext file)
      <-> PyStr.contains (fst (OsPath.splitext file)) suf = false).
Proof.
  intros Hk. rewrite (loop_ident_replace k suf file Hk).
  destruct (stripped_suffix_shape k suf Hk) as (tl & -> & Htl).
  unfold PyStr.replace. split; [apply replace_from_length|]. split.
  - intros E.
    destruct (PyStr.contains (fst (OsPath.splitext file)) (String "_" tl)) eqn:Hc;
      [|reflexivity].
    apply replace_from_shorter in Hc. rewrite E in Hc. lia.
  - intros Hc. now apply replace_from_absent.
Qed.

Lemma identifier_is_stem_iff_suffix_absent_witness :
  haralick_ident "sample1.csv" = "sample1"
  /\ (String.length (haar_ident "x_haar_y_haar.csv") <= 13)%nat.
Proof.
  destruct (identifier_is_stem_iff_suffix_absent HaralickLoop "_haralick"
              "sample1.csv" eq_refl) as [_ [_ H]].
  destruct (identifier_is_stem_iff_suffix_absent HaarLoop "_haar"
              "x_haar_y_haar.csv" eq_refl) as [Hlen _].
  split; [exact (H eq_refl)|exact Hlen].
Defined.

(** ** Column names after the renaming *)

Section ColumnNames.

Local Open Scope string_scope.

Lemma str_app_inv_head x : forall a b, x ++ a = x ++ b -> a = b.
Proof. induction x as [|c x IH]; intros a b E; [exact E|]. injection E. apply IH. Qed.

(** Two heads of one string: one is a head of the other. *)
Lemma prefix_comparable a : forall b x y,
  a ++ x = b ++ y -> String.prefix a b = true \/ String.prefix b a = true.
Proof.
  induction a as [|c a IH]; intros b x y E.
  - left. apply prefix_nil.
  - destruct b as [|c' b]; [right; apply prefix_nil|].
    simpl in E. injection E as -> E.
    rewrite !prefix_cons, Ascii.eqb_refl. simpl. now apply (IH b x y).
Qed.

Lemma NoDup_map_injective {A B} (f : A -> B) (l : list A) :
  (forall x y, f x = f y -> x = y) -> NoDup l -> NoDup (map f l).
Proof.
  intros Hinj Hl. induction Hl as [|a l Ha Hl IH]; simpl; constructor.
  - rewrite in_map_iff. intros (y & E & Hy). apply Hinj in E. now subst.
  - exact IH.
Qed.

Lemma NoDup_app_common {A} (x : A) (l1 l2 : list A) :
  In x l1 -> In x l2 -> ~ NoDup (l1 ++ l2).
Proof.
  intros H1 H2 Hnd. induction l1 as [|a l1 IH]; [contradiction|].
  simpl in Hnd. apply NoDup_cons_iff in Hnd as [Ha Hnd].
  destruct H1 as [->|H1].
  - apply Ha. apply in_or_app. now right.
  - now apply IH.
Qed.

Lemma in_columns_prefixed name df c :
  In c (columns df) -> In (name ++ "_" ++ c) (columns (prefixed name df)).
Proof.
  intros H. rewrite columns_prefixed.
  now apply (in_map (fun col => name ++ "_" ++ col)).
Qed.

(** A listed file that parses to a table that is not empty has its table
    among those of its directory. *)
Lemma contribution_in_group env ident folder names file df :
  In file names ->
  PyStr.endswith file ".csv" = true ->
  pd_read_csv env (OsPath.join folder file) = inr df ->
  empty df = false ->
  In (prefixed (ident file) df)
     (flat_map (contribution env ident folder) (csv_names names)).
Proof.
  intros Hin Hcsv Hread Hempty. apply in_flat_map. exists file. split.
  - now apply in_csv_names.
  - unfold contribution. rewrite Hread, Hempty. now left.
Qed.

End ColumnNames.

(** The renaming keeps the columns of one file apart: a table whose
    columns have distinct names still has distinct names once prefixed. *)
Theorem prefix_keeps_columns_distinct (name : string) (df : DataFrame) :
  NoDup (columns df) -> NoDup (columns (prefixed name df)).
Proof.
  intros H. rewrite columns_prefixed. apply NoDup_map_injective; [|exact H].
  intros x y E. apply str_app_inv_head in E. now injection E.
Qed.

Lemma prefix_keeps_columns_distinct_witness :
  NoDup (columns (prefixed "img1" (Fixtures.table ["a"; "b"] 2 "1"))).
Proof.
  apply prefix_keeps_columns_distinct. simpl.
  repeat constructor; simpl; intuition discriminate.
Defined.

(** Two files whose identifiers, each followed by the underscore, are not
    heads of one another contribute no column name in common, whatever
    their loops and their original column names. *)
Theorem incomparable_identifiers_disjoint_columns
    (env : Env) (k1 k2 : loop) (f1 f2 : string) (t1 t2 : DataFrame) (c : string) :
  String.prefix (loop_ident k1 f1 ++ "_") (loop_ident k2 f2 ++ "_") = false ->
  String.prefix (loop_ident k2 f2 ++ "_") (loop_ident k1 f1 ++ "_") = false ->
  In t1 (contribution env (loop_ident k1) (loop_folder k1) f1) ->
  In t2 (contribution env (loop_ident k2) (loop_folder k2) f2) ->
  In c (columns t1) -> ~ In c (columns t2).
Proof.
  intros H12 H21 Ht1 Ht2 Hc1 Hc2.
  unfold contribution in Ht1, Ht2.
  destruct (pd_read_csv env (OsPath.join (loop_folder k1) f1)) as [|d1];
    [contradiction|].
  destruct (pd_read_csv env (OsPath.join (loop_folder k2) f2)) as [|d2];
    [contradiction|].
  destruct (empty d1); [contradiction|]. destruct (empty d2); [contradiction|].
  destruct Ht1 as [<-|[]]. destruct Ht2 as [<-|[]].
  rewrite columns_prefixed in Hc1, Hc2.
  apply in_map_iff in Hc1 as (c1 & <- & _).
  apply in_map_iff in Hc2 as (c2 & E & _).
  rewrite <- !str_app_assoc in E.
  destruct (prefix_comparable _ _ _ _ E); congruence.
Qed.

Lemma incomparable_identifiers_disjoint_columns_witness :
  ~ In "img1_a"
       (columns (prefixed "img2" (Fixtures.table ["a"; "c"] 2 "2"))).
Proof.
  apply (incomparable_identifiers_disjoint_columns Fixtures.scenario
           BaseLoop BaseLoop "img1.csv" "img2.csv"
           (prefixed "img1" (Fixtures.table ["a"; "b"] 2 "1"))
           (prefixed "img2" (Fixtures.table ["a"; "c"] 2 "2"))
           "img1_a" eq_refl eq_refl (or_introl eq_refl) (or_introl eq_refl)
           (or_introl eq_refl)).
Defined.

(** The renaming does not keep the groups apart: when a base file and a
    Haralick file get the same identifier and have a column of the same
    name, that name, once prefixed, stands at least twice among the columns
    of the merged table that is written. *)
Theorem shared_identifier_duplicates_column
    (env : Env) (cfg : Config) (st : State) (names namesH : list string)
    (fb fh : string) (dfb dfh : DataFrame) (c : string) :
  os_listdir env folder_path = inr names ->
  In fb names ->
  PyStr.endswith fb ".csv" = true ->
  pd_read_csv env (OsPath.join folder_path fb) = inr dfb ->
  empty dfb = false ->
  merge_haralick cfg = true ->
  os_path_isdir env folder_haralick = true ->
  os_listdir env folder_haralick = inr namesH ->
  In fh namesH ->
  PyStr.endswith fh ".csv" = true ->
  pd_read_csv env (OsPath.join folder_haralick fh) = inr dfh ->
  empty dfh = false ->
  base_ident fb = haralick_ident fh ->
  In c (columns dfb) ->
  In c (columns dfh) ->
  run env cfg = (Ok tt, st) ->
  exists m,
    written st = [(output_filename cfg, to_csv m false)]
    /\ 2 <= count_occ string_dec (columns m) (base_ident fb ++ "_" ++ c)%string
    /\ ~ NoDup (columns m).
Proof.
  intros Hn Hfb Hcb Hrb Heb Hm Hd HnH Hfh Hch Hrh Heh Hid Hc1 Hc2 Hrun.
  destruct (run_ok_inv env cfg st Hrun) as (? & m & _ & _ & Hcat & _ & Hw).
  exists m. split; [exact Hw|].
  rewrite (concat_axis1_columns _ _ _ Hcat).
  assert (H1 : In (base_ident fb ++ "_" ++ c)%string
                  (flat_map columns (base_tables env))).
  { apply in_flat_map. exists (prefixed (base_ident fb) dfb). split.
    - unfold base_tables. rewrite (csv_files_of_ok _ _ _ Hn).
      now apply contribution_in_group.
    - now apply in_columns_prefixed. }
  assert (H2 : In (base_ident fb ++ "_" ++ c)%string
                  (flat_map columns (haralick_tables env))).
  { apply in_flat_map. exists (prefixed (haralick_ident fh) dfh). split.
    - unfold haralick_tables. rewrite Hd, (csv_files_of_ok _ _ _ HnH).
      now apply contribution_in_group.
    - rewrite Hid. now apply in_columns_prefixed. }
  unfold all_tables. rewrite Hm, !flat_map_app. split.
  - rewrite !count_occ_app.
    apply (count_occ_In string_dec) in H1, H2. lia.
  - rewrite app_assoc. intros Hnd. apply NoDup_app_remove_r in Hnd.
    now apply (NoDup_app_common _ _ _ H1 H2).
Qed.

Lemma shared_identifier_duplicates_column_witness :
  exists m,
    written (snd (run MoreFixtures.colliding source_config))
    = [(output_filename source_config, to_csv m false)]
    /\ 2 <= count_occ string_dec (columns m) "sample1_a"
    /\ ~ NoDup (columns m).
Proof.
  exact (shared_identifier_duplicates_column MoreFixtures.colliding source_config
           (snd (run MoreFixtures.colliding source_config))
           ["sample1.csv"] ["sample1_haralick.csv"]
           "sample1.csv" "sample1_haralick.csv"
           (Fixtures.table ["a"; "b"] 2 "1") (Fixtures.table ["a"] 2 "9") "a"
           eq_refl (or_introl eq_refl) eq_refl eq_refl eq_refl
           eq_refl eq_refl eq_refl (or_introl eq_refl) eq_refl eq_refl eq_refl
           eq_refl (or_introl eq_refl) (or_introl eq_refl) eq_refl).
Defined.

(** ** What [dfs] holds *)

Section LoadedTables.

Variable env : Env.

Lemma empty_prefixed name df : empty (prefixed name df) = empty df.
Proof. unfold empty, width, prefixed. simpl. now rewrite length_map. Qed.

Lemma well_formed_prefixed name df :
  well_formed df -> well_formed (prefixed name df).
Proof.
  unfold well_formed, prefixed. simpl. intros H.
  apply Forall_map. eapply Forall_impl; [|exact H]. now simpl.
Qed.

(** What a file contributes is the table read from it, renamed, and that
    table is not empty. *)
Lemma contribution_inv ident folder file t :
  In t (contribution env ident folder file) ->
  exists df,
    pd_read_csv env (OsPath.join folder file) = inr df
    /\ empty df = false
    /\ t = prefixed (ident file) df.
Proof.
  unfold contribution.
  destruct (pd_read_csv env (OsPath.join folder file)) as [|df]; [contradiction|].
  destruct (empty df) eqn:He; [contradiction|].
  intros [<-|[]]. now exists df.
Qed.

Lemma group_inv ident folder files t :
  In t (flat_map (contribution env ident folder) files) ->
  exists file df,
    In file files
    /\ pd_read_csv env (OsPath.join folder file) = inr df
    /\ empty df = false
    /\ t = prefixed (ident file) df.
Proof.
  intros H. apply in_flat_map in H as (file & Hf & Ht).
  apply contribution_inv in Ht as (df & ? & ? & ?). now exists file, df.
Qed.

(** Every table the enabled directories give comes from a read that
    succeeded with a table that is not empty. *)
Lemma all_tables_inv cfg t :
  In t (all_tables env cfg) ->
  exists name path df,
    pd_read_csv env path = inr df /\ empty df = false /\ t = prefixed name df.
Proof.
  unfold all_tables, base_tables, haralick_tables, haar_tables.
  intros H. apply in_app_or in H as [H|H]; [|apply in_app_or in H as [H|H]].
  - apply group_inv in H as (f & df & _ & Hr & He & ->).
    do 3 eexists. repeat split; eassumption.
  - destruct (merge_haralick cfg); [|contradiction].
    destruct (os_path_isdir env folder_haralick); [|contradiction].
    apply group_inv in H as (f & df & _ & Hr & He & ->).
    do 3 eexists. repeat split; eassumption.
  - destruct (merge_haar cfg); [|contradiction].
    destruct (os_path_isdir env folder_haarlike); [|contradiction].
    apply group_inv in H as (f & df & _ & Hr & He & ->).
    do 3 eexists. repeat split; eassumption.
Qed.

Lemma all_tables_not_empty cfg :
  Forall (fun t => empty t = false) (all_tables env cfg).
Proof.
  apply Forall_forall. intros t Ht.
  apply all_tables_inv in Ht as (name & path & df & _ & He & ->).
  now rewrite empty_prefixed.
Qed.

Lemma all_tables_well_formed cfg :
  (forall path df, pd_read_csv env path = inr df -> well_formed df) ->
  Forall well_formed (all_tables env cfg).
Proof.
  intros Hwf. apply Forall_forall. intros t Ht.
  apply all_tables_inv in Ht as (name & path & df & Hr & _ & ->).
  apply well_formed_prefixed. now apply Hwf with path.
Qed.

Lemma empty_false_inv t : empty t = false -> 1 <= nrows t /\ 1 <= width t.
Proof.
  unfold empty. intros H. apply orb_false_elim in H as [Hr Hw].
  apply Nat.eqb_neq in Hr, Hw. lia.
Qed.

End LoadedTables.

(** The file that is written never holds an empty table: in every run that
    reaches the output, each loaded table has at least one row and one
    column, and so has the merged table; the file has a header with at
    least one field and at least one data line. *)
Theorem output_never_empty (env : Env) (cfg : Config) (st : State) :
  run env cfg = (Ok tt, st) ->
  Forall (fun t => empty t = false) (dfs st)
  /\ exists m rows,
       written st = [(output_filename cfg, columns m :: rows)]
       /\ 1 <= nrows m
       /\ 1 <= width m
       /\ List.length rows = nrows m
       /\ List.length (columns m) = width m.
Proof.
  intros Hrun.
  destruct (run_ok_inv env cfg st Hrun) as (? & m & _ & Hb & Hcat & Hd & Hw).
  rewrite Hd. split; [apply all_tables_not_empty|].
  destruct (to_csv_no_index m) as (rows & Hc & Hlen & _).
  exists m, rows. rewrite Hw, Hc.
  pose proof (concat_axis1_width _ _ _ Hcat) as Hwd.
  pose proof (all_tables_not_empty env cfg) as Hall.
  destruct (all_tables env cfg) as [|t l] eqn:Ht.
  - exfalso. unfold all_tables in Ht. apply app_eq_nil in Ht as [Ht _].
    now apply Hb.
  - inversion Hall as [|? ? He _]; subst.
    apply empty_false_inv in He as [Hr Hc'].
    assert (Hn : 1 <= nrows m).
    { apply (concat_axis1_has_row (pandas env) (t :: l) m t Hcat);
        [now left|exact Hr]. }
    simpl in Hwd. repeat split; try assumption; try lia.
    unfold columns, width. now rewrite length_map.
Qed.

Lemma output_never_empty_witness :
  exists m rows,
    written (snd (run Fixtures.damaged Fixtures.plain))
    = [(output_filename Fixtures.plain, columns m :: rows)]
    /\ 1 <= nrows m /\ 1 <= width m.
Proof.
  destruct (output_never_empty Fixtures.damaged Fixtures.plain
              (snd (run Fixtures.damaged Fixtures.plain)) eq_refl)
    as (_ & m & rows & Hw & Hr & Hc & _).
  now exists m, rows.
Defined.

(** ** The lines of the file written *)

Section OutputLines.

Lemma to_csv_lines m :
  to_csv m false = columns m :: map (csv_row m false) (seq 0 (nrows m)).
Proof. reflexivity. Qed.

(** A line of tables put side by side is made of their lines. *)
Lemma csv_row_side_by_side idx l i :
  csv_row (mkDF idx (flat_map series l)) false i
  = flat_map (fun df => csv_row df false i) l.
Proof.
  unfold csv_row. simpl.
  induction l as [|df l IH]; [reflexivity|].
  cbn [flat_map]. rewrite map_app. f_equal. exact IH.
Qed.

End OutputLines.

(** Rows of tables with one index stay side by side: when the loaded
    tables all have the same row index (the default index and the same
    number of rows, for instance), the header of the file written is made of
    their headers in load order, and data line [i] is made of line [i] of
    each table in load order, as [to_csv] would write it for that table
    alone. *)
Theorem output_lines_side_by_side
    (env : Env) (cfg : Config) (st : State) (idx : list label) :
  run env cfg = (Ok tt, st) ->
  Forall (fun df => index df = idx) (dfs st) ->
  written st
  = [(output_filename cfg,
      flat_map columns (dfs st)
        :: map (fun i => flat_map (fun df => csv_row df false i) (dfs st))
               (seq 0 (List.length idx)))].
Proof.
  intros Hrun Hidx.
  destruct (run_ok_inv env cfg st Hrun) as (? & m & _ & _ & Hcat & Hd & Hw).
  rewrite Hd in *. rewrite Hw.
  destruct (concat_axis1_same_index (pandas env) _ _ idx Hcat Hidx) as [Hi Hs].
  rewrite to_csv_lines, (concat_axis1_columns _ _ _ Hcat).
  unfold nrows. rewrite Hi. do 3 f_equal. apply map_ext. intros i.
  rewrite <- (csv_row_side_by_side idx). f_equal.
  destruct m as [mi ms]. simpl in *. now subst.
Qed.

Lemma output_lines_side_by_side_witness :
  written (snd (run Fixtures.scenario source_config))
  = [(output_filename source_config,
      flat_map columns (dfs (snd (run Fixtures.scenario source_config)))
        :: map (fun i =>
                  flat_map (fun df => csv_row df false i)
                           (dfs (snd (run Fixtures.scenario source_config))))
               (seq 0 (List.length (range_index 2))))].
Proof.
  apply (output_lines_side_by_side Fixtures.scenario source_config
           (snd (run Fixtures.scenario source_config)) (range_index 2) eq_refl).
  repeat (constructor; [reflexivity|]). constructor.
Defined.

(** ** Every file is loaded or reported *)

(** Each turn of a loop does one of two things after the lines that
    announce the file: it appends one table to [dfs], or it prints one line
    (the file is empty, or reading it failed).  Over a whole loop, tables
    and lines together grow by two per file in the base and Haralick loops
    and by three in the Haar loop, which also prints the file name. *)
Theorem file_loaded_or_reported
    (env : Env) (k : loop) (files : list string) (st : State) :
  let final := for_each files (loop_body env k) st in
  fst final = Ok tt
  /\ written (snd final) = written st
  /\ List.length (dfs (snd final)) + List.length (stdout (snd final))
     = List.length (dfs st) + List.length (stdout st)
       + List.length files * (match k with HaarLoop => 3 | _ => 2 end)
  /\ List.length (dfs (snd final)) <= List.length (dfs st) + List.length files.
Proof.
  intros final. subst final. rewrite loop_body_shape, for_each_load_spec. simpl.
  split; [reflexivity|]. split; [reflexivity|].
  rewrite !length_app.
  assert (Hone : forall f,
    List.length (contribution env (loop_ident k) (loop_folder k) f)
    + List.length (file_log env (loop_announce k) (loop_folder k) f)
    = match k with HaarLoop => 3 | _ => 2 end
    /\ List.length (contribution env (loop_ident k) (loop_folder k) f) <= 1).
  { intros f. unfold file_log, contribution, verdict. rewrite length_app.
    destruct (pd_read_csv env (OsPath.join (loop_folder k) f)) as [e|df];
      [|destruct (empty df)]; destruct k; simpl; lia. }
  induction files as [|f files IH]; simpl; [lia|].
  rewrite !length_app. destruct (Hone f) as [H1 H2]. lia.
Qed.

(** ** How a run ends *)

(** The exceptions that end a run come from the four calls that are not
    inside a [try]: [os.listdir] on the base directory; [os.listdir] on an
    optional directory whose switch is on and that [os.path.isdir] accepts,
    once the base directory gave a table; then [pd.concat]; then [to_csv].
    Such a run writes nothing.  An error of [pd.read_csv] never leaves the
    script: when the base directory can be listed and every read fails, the
    run ends by [exit(1)]. *)
Theorem uncaught_errors_and_their_sources (env : Env) (cfg : Config) (e : string) :
  (fst (run env cfg) = Raise e
   <-> os_listdir env folder_path = inl e
       \/ ((exists names, os_listdir env folder_path = inr names)
           /\ base_tables env <> []
           /\ (listing_fails env (merge_haralick cfg) folder_haralick e
               \/ ((forall e', ~ listing_fails env (merge_haralick cfg)
                                   folder_haralick e')
                   /\ (listing_fails env (merge_haar cfg) folder_haarlike e
                       \/ ((forall e', ~ listing_fails env (merge_haar cfg)
                                           folder_haarlike e')
                           /\ (concat_axis1 (pandas env) (all_tables env cfg)
                               = inl e
                               \/ ((exists m,
                                      concat_axis1 (pandas env) (all_tables env cfg)
                                      = inr m)
                                   /\ to_csv_error env (output_filename cfg)
                                      = Some e))))))))
  /\ (fst (run env cfg) = Raise e -> written (snd (run env cfg)) = [])
  /\ (forall names,
      os_listdir env folder_path = inr names ->
      (forall path, exists e', pd_read_csv env path = inl e') ->
      fst (run env cfg) = SysExit 1).
Proof.
  pose proof (run_outcome env cfg) as H. split; [split|split].
  - intros Hr. destruct H; simpl in Hr; try discriminate;
      injection Hr as ->.
    + now left.
    + right. split; [eauto|]. split; [assumption|]. now left.
    + right. split; [eauto|]. split; [assumption|]. right.
      split; [assumption|]. now left.
    + right. split; [eauto|]. split; [assumption|]. right.
      split; [assumption|]. right. split; [assumption|]. now left.
    + right. split; [eauto|]. split; [assumption|]. right.
      split; [assumption|]. right. split; [assumption|]. right.
      split; [eauto|assumption].
  - intros [Hb|((names & Hn) & Hb & Hrest)].
    + destruct H; simpl; congruence.
    + destruct H; simpl; try congruence;
        destruct Hrest as [Hh|[Hh [Ha|[Ha [Hc|[[m' Hc] Hw]]]]]];
        try (exfalso; eapply Hh; eassumption);
        try (exfalso; eapply Ha; eassumption);
        try (exfalso; eapply H1; eassumption);
        try (exfalso; eapply H2; eassumption);
        try congruence;
        repeat match goal with
               | L : listing_fails _ _ _ _ |- _ => destruct L as (_ & _ & L)
               end;
        congruence.
  - intros Hr. destruct H; simpl in Hr; try discriminate; reflexivity.
  - intros names Hn Hfail.
    assert (Hb : base_tables env = []).
    { unfold base_tables. induction (csv_files_of env folder_path) as [|f l IH];
        simpl; [reflexivity|].
      rewrite IH. unfold contribution.
      destruct (Hfail (OsPath.join folder_path f)) as [e' ->]. reflexivity. }
    destruct H; simpl; congruence.
Qed.

Lemma uncaught_errors_and_their_sources_witness :
  (fst (run MoreFixtures.locked source_config)
   = Raise "[Errno 13] Permission denied: 'haralick_files/'"
   /\ written (snd (run MoreFixtures.locked source_config)) = [])
  /\ fst (run MoreFixtures.repeating source_config)
     = Raise "Reindexing only valid with uniquely valued Index objects"
  /\ fst (run MoreFixtures.unwritable source_config)
     = Raise "[Errno 21] Is a directory: '2kyr_new_AllColumns_onlyHaralick.csv'".
Proof.
  split; [|split].
  - destruct (uncaught_errors_and_their_sources MoreFixtures.locked source_config
                "[Errno 13] Permission denied: 'haralick_files/'")
      as ([_ Hif] & Hthen & _).
    assert (H : fst (run MoreFixtures.locked source_config)
                = Raise "[Errno 13] Permission denied: 'haralick_files/'").
    { apply Hif. right. split; [eexists; reflexivity|].
      split; [discriminate|]. left. repeat split. }
    split; [exact H|]. now apply Hthen.
  - apply (uncaught_errors_and_their_sources MoreFixtures.repeating source_config).
    right. split; [eexists; reflexivity|]. split; [discriminate|].
    right. split; [intros e' (_ & Hd & _); discriminate|].
    right. split; [intros e' (Hm & _); discriminate|].
    left. reflexivity.
  - apply (uncaught_errors_and_their_sources MoreFixtures.unwritable source_config).
    right. split; [eexists; reflexivity|]. split; [discriminate|].
    right. split; [intros e' (_ & _ & Hl); discriminate|].
    right. split; [intros e' (Hm & _); discriminate|].
    right. split; [eexists; reflexivity|reflexivity].
Defined.

(** The exit status is 0 or 1, and it is 0 exactly when the output file
    was written; the last line printed is then the success message. *)
Theorem status_zero_iff_written (env : Env) (cfg : Config) :
  (exit_status (run env cfg) = 0%Z \/ exit_status (run env cfg) = 1%Z)
  /\ (exit_status (run env cfg) = 0%Z <-> written (snd (run env cfg)) <> [])
  /\ (exit_status (run env cfg) = 0%Z ->
      last (stdout (snd (run env cfg))) EmptyString
      = "CSV files merged successfully!"
      /\ exists content,
           written (snd (run env cfg)) = [(output_filename cfg, content)]).
Proof.
  pose proof (run_outcome env cfg) as H. unfold exit_status.
  destruct H; simpl; (split; [auto|]); (split; [split|]);
    try discriminate; try congruence; try reflexivity.
  intros _. split; [|eauto].
  rewrite !app_assoc.
  change ["Saving Final Dataset..."; "CSV files merged successfully!"]
    with (["Saving Final Dataset..."] ++ ["CSV files merged successfully!"]).
  rewrite app_assoc. apply last_last.
Qed.

(** The four settings of the switches give four different output names,
    so that runs with different settings do not overwrite one another's
    file. *)
Theorem output_names_distinct (cfg cfg' : Config) :
  output_filename cfg = output_filename cfg' ->
  merge_haralick cfg = merge_haralick cfg'
  /\ merge_haar cfg = merge_haar cfg'.
Proof.
  destruct cfg as [[] []], cfg' as [[] []]; intros E;
    vm_compute in E; try discriminate E; now split.
Qed.

Lemma output_names_distinct_witness :
  merge_haralick source_config = merge_haralick (mkConfig true false)
  /\ merge_haar source_config = merge_haar (mkConfig true false).
Proof.
  exact (output_names_distinct source_config (mkConfig true false) eq_refl).
Defined.

(** A base directory that can be listed and holds no CSV file: the run
    prints that no CSV file was found, goes on to the check on [dfs], prints
    the diagnostic and exits with status 1; nothing else happens.  With at
    least one CSV file the first line printed announces the first file in
    sorted order. *)
Theorem first_lines_of_output (env : Env) (cfg : Config) (names : list string) :
  os_listdir env folder_path = inr names ->
  (csv_names names = [] ->
   run env cfg = (SysExit 1, mkState [] [msg_no_csv; msg_no_valid] []))
  /\ (forall f rest,
      csv_names names = f :: rest ->
      hd EmptyString (stdout (snd (run env cfg)))
      = ("Merging: " ++ OsPath.join folder_path f)%string).
Proof.
  intros Hn. pose proof (run_outcome env cfg) as H. split.
  - intros Hc.
    assert (Hb : base_tables env = []).
    { unfold base_tables. now rewrite (csv_files_of_ok _ _ _ Hn), Hc. }
    destruct H; try congruence.
    unfold base_log. rewrite Hb, (csv_files_of_ok _ _ _ Hn), Hc. reflexivity.
  - intros f rest Hc.
    assert (Hlog : exists more,
      base_log env = ("Merging: " ++ OsPath.join folder_path f)%string :: more).
    { unfold base_log. rewrite (csv_files_of_ok _ _ _ Hn), Hc. simpl.
      eexists. reflexivity. }
    destruct Hlog as [more Hlog].
    destruct H; simpl; try congruence; try unfold log_before_concat;
      rewrite Hlog; reflexivity.
Qed.

Lemma first_lines_of_output_witness :
  run Fixtures.only_haralick source_config
  = (SysExit 1, mkState [] [msg_no_csv; msg_no_valid] [])
  /\ hd EmptyString (stdout (snd (run Fixtures.scenario source_config)))
     = "Merging: 2kyr_new/img1.csv".
Proof.
  split.
  - exact (proj1 (first_lines_of_output Fixtures.only_haralick source_config
                    ["readme.txt"] eq_refl) eq_refl).
  - exact (proj2 (first_lines_of_output Fixtures.scenario source_config
                    ["img2.csv"; "notes.txt"; "img1.csv"] eq_refl)
                 "img1.csv" ["img2.csv"] eq_refl).
Defined.

(** ** The order of a directory listing does not matter *)

Section ListingOrder.

Lemma filter_permutation {A} (f : A -> bool) (l l' : list A) :
  Permutation l l' -> Permutation (filter f l) (filter f l').
Proof.
  intros H. induction H as [|x l l' _ IH|x y l|l l' l'' _ IH1 _ IH2]; simpl.
  - constructor.
  - destruct (f x); [now constructor|exact IH].
  - destruct (f x), (f y); try reflexivity. constructor.
  - now transitivity (filter f l').
Qed.

(** Two ascending lists with the same elements are the same list. *)
Lemma ascending_unique (l : list string) : forall l',
  StronglySorted (fun a b => String.leb a b = true) l ->
  StronglySorted (fun a b => String.leb a b = true) l' ->
  Permutation l l' -> l = l'.
Proof.
  induction l as [|a l IH]; intros l' Hs Hs' Hp.
  - apply Permutation_nil in Hp. now subst.
  - destruct l' as [|b l'].
    + apply Permutation_sym, Permutation_nil in Hp. discriminate.
    + apply StronglySorted_inv in Hs as [Hs Ha].
      apply StronglySorted_inv in Hs' as [Hs' Hb].
      rewrite Forall_forall in Ha, Hb.
      assert (a = b) as ->.
      { assert (Hin : In a (b :: l'))
          by (eapply Permutation_in; [exact Hp|now left]).
        assert (Hin' : In b (a :: l))
          by (eapply Permutation_in; [apply Permutation_sym; exact Hp|now left]).
        destruct Hin as [->|Hin]; [reflexivity|].
        destruct Hin' as [->|Hin']; [reflexivity|].
        apply String.leb_antisym; [now apply Ha|now apply Hb]. }
      f_equal. apply IH; try assumption.
      now apply Permutation_cons_inv with b.
Qed.

(** The files loaded from a directory depend on the names it holds, not on
    the order in which [os.listdir] gives them. *)
Lemma csv_names_permutation names names' :
  Permutation names names' -> csv_names names = csv_names names'.
Proof.
  intros H. apply ascending_unique; try apply sorted_ascending.
  unfold csv_names.
  eapply Permutation_trans; [apply Permutation_sym, sorted_permutation|].
  eapply Permutation_trans; [|apply sorted_permutation].
  now apply filter_permutation.
Qed.

Variables env env' : Env.
Hypothesis Hsame : same_files env env'.

Lemma same_csv_listing folder st :
  csv_listing env folder st = csv_listing env' folder st.
Proof.
  destruct Hsame as (Hl & _ & _). specialize (Hl folder).
  unfold csv_listing, bind, lift, same_listing in *.
  destruct (os_listdir env folder) as [e|names],
           (os_listdir env' folder) as [e'|names']; try contradiction.
  - now subst.
  - simpl. unfold ret. do 2 f_equal. now apply csv_names_permutation.
Qed.

Lemma same_load_file announce ident folder file st :
  load_file env announce ident folder file st
  = load_file env' announce ident folder file st.
Proof.
  destruct Hsame as (_ & _ & Hr & _).
  unfold load_file, bind, try_except. simpl.
  now rewrite (Hr (OsPath.join folder file)).
Qed.

Lemma same_concat l :
  concat_axis1 (pandas env) l = concat_axis1 (pandas env') l.
Proof.
  destruct Hsame as (_ & _ & _ & _ & Hu & Hc).
  destruct l as [|d rest]; [reflexivity|].
  unfold concat_axis1, concat_index. rewrite Hc.
  destruct (if forallb (fun df => index_eqb (index df) (index d)) rest
            then inr (index d)
            else if forallb default_index (d :: rest)
            then inr (range_index (list_max (map nrows (d :: rest))))
            else combined_index (pandas env') (map index (d :: rest)))
    as [e|new]; [reflexivity|].
  do 2 f_equal. apply flat_map_agree. intros df _.
  apply map_ext. intros c. f_equal.
  unfold aligned, reindex. now rewrite Hu.
Qed.

Lemma same_save_stage cfg st : save_stage env cfg st = save_stage env' cfg st.
Proof.
  destruct Hsame as (_ & _ & _ & Hw & _).
  unfold save_stage, bind, print, get_dfs, lift, write_file. simpl.
  rewrite same_concat.
  destruct (concat_axis1 (pandas env') (dfs st)) as [e|m]; [reflexivity|].
  simpl. now rewrite Hw.
Qed.

Lemma same_for_each announce ident folder files : forall st,
  for_each files (load_file env announce ident folder) st
  = for_each files (load_file env' announce ident folder) st.
Proof.
  induction files as [|f files IH]; intros st; simpl; [reflexivity|].
  unfold bind. rewrite same_load_file.
  destruct (load_file env' announce ident folder f st) as [[[]| |] st'];
    [apply IH|reflexivity|reflexivity].
Qed.

Lemma same_base_stage st : base_stage env st = base_stage env' st.
Proof.
  unfold base_stage, bind. rewrite same_csv_listing.
  destruct (csv_listing env' folder_path st) as [[files| |] st1];
    try reflexivity.
  destruct (match files with
            | [] => print "No CSV files found in the specified folder."
            | _ :: _ => ret tt
            end st1) as [[[]| |] st2]; try reflexivity.
  destruct (set_dfs [] st2) as [[[]| |] st3]; try reflexivity.
  unfold load_base. now rewrite same_for_each.
Qed.

Lemma same_optional_stage enabled folder title missing announce ident st :
  optional_stage env enabled folder title missing announce ident st
  = optional_stage env' enabled folder title missing announce ident st.
Proof.
  unfold optional_stage. destruct enabled; [|reflexivity].
  destruct Hsame as (_ & Hd & _). rewrite (Hd folder).
  destruct (os_path_isdir env' folder); [|reflexivity].
  unfold bind. rewrite same_csv_listing.
  destruct (csv_listing env' folder st) as [[files| |] st1]; try reflexivity.
  destruct (print title st1) as [[[]| |] st2]; try reflexivity.
  apply same_for_each.
Qed.

End ListingOrder.

(** [os.listdir] gives the names of a directory in arbitrary order; the
    script does not depend on it.  Two file systems that hold the same names
    in every directory, listed in whatever order, and the same files, give
    the same run: the same result, the same tables in [dfs], the same lines
    printed and the same file written. *)
Theorem run_independent_of_listing_order (env env' : Env) (cfg : Config) :
  same_files env env' -> run env cfg = run env' cfg.
Proof.
  intros Hsame. unfold run, script, bind.
  rewrite (same_base_stage env env' Hsame).
  destruct (base_stage env' initial) as [[[]| |] st1]; try reflexivity.
  rewrite !haralick_stage_shape, !haar_stage_shape.
  rewrite (same_optional_stage env env' Hsame).
  destruct (optional_stage env' (merge_haralick cfg) folder_haralick
              haralick_title haralick_missing haralick_announce haralick_ident
              st1) as [[[]| |] st2]; try reflexivity.
  rewrite (same_optional_stage env env' Hsame).
  destruct (optional_stage env' (merge_haar cfg) folder_haarlike
              haar_title haar_missing haar_announce haar_ident st2)
    as [[[]| |] st3]; try reflexivity.
  apply (same_save_stage env env' Hsame).
Qed.

Lemma run_independent_of_listing_order_witness :
  run Fixtures.scenario Fixtures.both = run MoreFixtures.shuffled Fixtures.both.
Proof.
  apply run_independent_of_listing_order. split; [|split].
  - intros d. simpl.
    destruct (d =? "2kyr_new/")%string.
    + simpl. apply Permutation_sym.
      apply (Permutation_cons_app ["img2.csv"; "notes.txt"] [] "img1.csv").
      reflexivity.
    + destruct (d =? "haralick_files/")%string; [simpl; reflexivity|].
      destruct (d =? "haar_files/")%string; simpl; reflexivity.
  - intros d. simpl.
    repeat (destruct (d =? _)%string; [reflexivity|]). reflexivity.
  - repeat split.
Defined.
